(** * idiomapi: the to-do repository, its mapper and its list handler

    A shallow embedding of the Go packages [model], [dto], [repository]
    and [handler] of g3offrey/idiomapi, together with the PostgreSQL table
    of [migrations/001_create_todos_table.sql] that the repository talks to.

    Go's [int] is the 64-bit two's-complement integer; it is embedded in [Z]
    with the wrap-around written out.  The table is a list of rows in heap
    order plus the last value of the [SERIAL] sequence.  Every call to the
    pool takes a [StoreOutcome]: either the store executes the statement, or
    the call is aborted with a driver error (cancelled context, deadline,
    lost connection, statement refused).  A refusal by the store itself, such
    as a value that does not fit its column, is one of these aborts. *)

From Stdlib Require Import ZArith List String Ascii Bool Lia.
From Stdlib Require Import Sorted Permutation DecimalString.
Import ListNotations.

Local Open Scope string_scope.
Local Open Scope list_scope.
Local Open Scope Z_scope.

(** ** Go's machine integers *)

Module GoInt.

Definition min_int : Z := - 2 ^ 63.
Definition max_int : Z := 2 ^ 63 - 1.

Definition in_range (z : Z) : Prop := min_int <= z <= max_int.

(** Reduction of a mathematical result to the 64-bit signed range. *)
Definition wrap (z : Z) : Z := (z + 2 ^ 63) mod 2 ^ 64 - 2 ^ 63.

Definition add (a b : Z) : Z := wrap (a + b).
Definition sub (a b : Z) : Z := wrap (a - b).
Definition mul (a b : Z) : Z := wrap (a * b).

(** [a / b] truncates toward zero and panics when [b] is zero. *)
Definition div (a b : Z) : option Z :=
  if b =? 0 then None else Some (wrap (Z.quot a b)).

End GoInt.

(** ** Errors

    Go error values as the repository produces and inspects them: its own
    sentinel, the driver's [pgx.ErrNoRows], the other driver errors, and the
    [%w] wrapping of [fmt.Errorf]. *)

Inductive DriverFault : Type :=
| ContextCanceled
| ContextDeadlineExceeded
| ConnectionLost
| StatementRefused.

Inductive error : Type :=
| ErrNotFound
| pgx_ErrNoRows
| Driver (f : DriverFault)
| Errorf (prefix : string) (wrapped : error).

Definition DriverFault_eqb (a b : DriverFault) : bool :=
  match a, b with
  | ContextCanceled, ContextCanceled
  | ContextDeadlineExceeded, ContextDeadlineExceeded
  | ConnectionLost, ConnectionLost
  | StatementRefused, StatementRefused => true
  | _, _ => false
  end.

Fixpoint error_eqb (a b : error) : bool :=
  match a, b with
  | ErrNotFound, ErrNotFound => true
  | pgx_ErrNoRows, pgx_ErrNoRows => true
  | Driver f, Driver g => DriverFault_eqb f g
  | Errorf p x, Errorf q y => String.eqb p q && error_eqb x y
  | _, _ => false
  end.

(** [errors.Is]: the error itself or anything it wraps. *)
Fixpoint errors_Is (err target : error) : bool :=
  error_eqb err target
  || match err with
     | Errorf _ wrapped => errors_Is wrapped target
     | _ => false
     end.

Definition DriverFault_text (f : DriverFault) : string :=
  match f with
  | ContextCanceled => "context canceled"
  | ContextDeadlineExceeded => "context deadline exceeded"
  | ConnectionLost => "connection lost"
  | StatementRefused => "statement refused"
  end.

(** The [Error()] text. *)
Fixpoint error_text (e : error) : string :=
  match e with
  | ErrNotFound => "todo not found"
  | pgx_ErrNoRows => "no rows in result set"
  | Driver f => DriverFault_text f
  | Errorf prefix wrapped => (prefix ++ error_text wrapped)%string
  end.

Inductive result (A : Type) : Type :=
| Ok (a : A)
| Err (e : error).

Arguments Ok {A} a.
Arguments Err {A} e.

Inductive StoreOutcome : Type :=
| Executes
| Aborts (f : DriverFault).

(** ** package model and package dto *)

Definition Timestamp := Z.

Record Todo : Type := mkTodo {
  ID : Z;
  Title : string;
  Description : string;
  Completed : bool;
  CreatedAt : Timestamp;
  UpdatedAt : Timestamp
}.

Record CreateTodoRequest : Type := mkCreate {
  create_Title : string;
  create_Description : string;
  create_Completed : bool
}.

(** A nil pointer is [None]: the field was not supplied. *)
Record UpdateTodoRequest : Type := mkUpdate {
  update_Title : option string;
  update_Description : option string;
  update_Completed : option bool
}.

Record TodoResponse : Type := mkTodoResponse {
  resp_ID : Z;
  resp_Title : string;
  resp_Description : string;
  resp_Completed : bool;
  resp_CreatedAt : Timestamp;
  resp_UpdatedAt : Timestamp
}.

Record TodoListResponse : Type := mkTodoListResponse {
  Todos : list TodoResponse;
  Total : Z;
  Page : Z;
  PageSize : Z;
  TotalPages : Z
}.

Definition ToTodoResponse (todo : Todo) : TodoResponse :=
  {| resp_ID := ID todo;
     resp_Title := Title todo;
     resp_Description := Description todo;
     resp_Completed := Completed todo;
     resp_CreatedAt := CreatedAt todo;
     resp_UpdatedAt := UpdatedAt todo |}.

Definition ToTodoResponseList (todos : list Todo) : list TodoResponse :=
  map ToTodoResponse todos.

(** [totalPages := (total + pageSize - 1) / pageSize], then the floor of
    one page. *)
Definition totalPages_of (total pageSize : Z) : option Z :=
  match GoInt.div (GoInt.sub (GoInt.add total pageSize) 1) pageSize with
  | None => None
  | Some totalPages => Some (if totalPages =? 0 then 1 else totalPages)
  end.

(** [None] is the run-time panic of an integer division by zero. *)
Definition ToTodoListResponse (todos : list Todo) (total page pageSize : Z)
  : option TodoListResponse :=
  match totalPages_of total pageSize with
  | None => None
  | Some totalPages =>
      Some {| Todos := ToTodoResponseList todos;
              Total := total;
              Page := page;
              PageSize := pageSize;
              TotalPages := totalPages |}
  end.

(** ** Strings: [fmt.Sprintf("%d", n)] and the text of a statement *)

Definition itoa (n : Z) : string :=
  DecimalString.NilZero.string_of_int (Z.to_int n).

Definition atoi (s : string) : option Z :=
  match DecimalString.NilZero.int_of_string s with
  | Some (Decimal.Pos d) => Some (Z.of_int (Decimal.Pos d))
  | _ => None
  end.

Fixpoint strip_prefix (p s : string) : option string :=
  match p with
  | EmptyString => Some s
  | String a p' =>
      match s with
      | EmptyString => None
      | String b s' => if Ascii.eqb a b then strip_prefix p' s' else None
      end
  end.

(** The text before and after the first occurrence of [sep]. *)
Fixpoint split_at (sep s : string) : option (string * string) :=
  match strip_prefix sep s with
  | Some rest => Some (EmptyString, rest)
  | None =>
      match s with
      | EmptyString => None
      | String c s' =>
          match split_at sep s' with
          | Some (before, rest) => Some (String c before, rest)
          | None => None
          end
      end
  end.

(** The items of a list written with [", "] between them. *)
Fixpoint split_comma (s : string) : list string :=
  match s with
  | EmptyString => [EmptyString]
  | String "," (String " " s') => EmptyString :: split_comma s'
  | String c s' =>
      match split_comma s' with
      | item :: items => String c item :: items
      | [] => [String c EmptyString]
      end
  end.

(** ** The entity store

    The table [todos] of the migration: [id SERIAL PRIMARY KEY], the two
    timestamps [DEFAULT NOW()], and the trigger [update_todos_updated_at]
    that runs [update_updated_at_column] before every row update.  [NOW()]
    is the time of the statement and is an input of each writing call. *)

Record Store : Type := mkStore {
  rows : list Todo;
  todos_id_seq : Z
}.

Definition empty_store : Store := {| rows := []; todos_id_seq := 0 |}.

(** [INSERT INTO todos (title, description, completed) VALUES ($1, $2, $3)
    RETURNING id, title, description, completed, created_at, updated_at] *)
Definition insert_returning (st : Store) (now : Timestamp)
    (title description : string) (completed : bool) : Store * Todo :=
  let id := todos_id_seq st + 1 in
  let row := {| ID := id; Title := title; Description := description;
                Completed := completed; CreatedAt := now; UpdatedAt := now |} in
  ({| rows := rows st ++ [row]; todos_id_seq := id |}, row).

(** [SELECT ... FROM todos WHERE id = $1] *)
Definition select_by_id (st : Store) (id : Z) : list Todo :=
  filter (fun t => ID t =? id) (rows st).

(** [WHERE completed = $1], or no [WHERE] clause. *)
Definition matches (completed : option bool) (t : Todo) : bool :=
  match completed with
  | Some c => Bool.eqb (Completed t) c
  | None => true
  end.

(** [SELECT COUNT( * ) FROM todos [WHERE completed = $1]] *)
Definition select_count (st : Store) (completed : option bool) : Z :=
  Z.of_nat (List.length (filter (matches completed) (rows st))).

(** [ORDER BY created_at DESC]: rows of equal [created_at] stay in heap
    order. *)
Fixpoint insert_desc (t : Todo) (l : list Todo) : list Todo :=
  match l with
  | [] => [t]
  | x :: l' =>
      if CreatedAt x <=? CreatedAt t then t :: x :: l'
      else x :: insert_desc t l'
  end.

Definition order_by_created_at_desc (l : list Todo) : list Todo :=
  fold_right insert_desc [] l.

(** [SELECT ... FROM todos [WHERE completed = $1] ORDER BY created_at DESC
    LIMIT $n OFFSET $m]; the store refuses a negative limit or offset. *)
Definition select_page (st : Store) (completed : option bool)
    (limit offset : Z) : option (list Todo) :=
  if (limit <? 0) || (offset <? 0) then None
  else Some (firstn (Z.to_nat limit)
               (skipn (Z.to_nat offset)
                  (order_by_created_at_desc
                     (filter (matches completed) (rows st))))).

(** [DELETE FROM todos WHERE id = $1], with the count of affected rows. *)
Definition delete_by_id (st : Store) (id : Z) : Store * Z :=
  ({| rows := filter (fun t => negb (ID t =? id)) (rows st);
      todos_id_seq := todos_id_seq st |},
   Z.of_nat (List.length (select_by_id st id))).

(** *** The parameterised [UPDATE]

    The repository sends a text and a list of arguments.  The store reads
    the text back into assignments [column = $n] and a [WHERE id = $n], binds
    each [$n] to the n-th argument, and runs the update. *)

Inductive Column : Type := col_title | col_description | col_completed.

Inductive Arg : Type :=
| ArgString (s : string)
| ArgBool (b : bool)
| ArgInt (z : Z).

Record UpdateStmt : Type := mkUpdateStmt {
  assignments : list (Column * Z);
  where_id : Z
}.

Definition Column_name (c : Column) : string :=
  match c with
  | col_title => "title"
  | col_description => "description"
  | col_completed => "completed"
  end.

Definition returning_clause : string :=
  " RETURNING id, title, description, completed, created_at, updated_at".

Definition parse_assignment (s : string) : option (Column * Z) :=
  match strip_prefix "title = $" s with
  | Some n => option_map (pair col_title) (atoi n)
  | None =>
  match strip_prefix "description = $" s with
  | Some n => option_map (pair col_description) (atoi n)
  | None =>
  match strip_prefix "completed = $" s with
  | Some n => option_map (pair col_completed) (atoi n)
  | None => None
  end end end.

Fixpoint parse_assignments (items : list string) : option (list (Column * Z)) :=
  match items with
  | [] => Some []
  | item :: rest =>
      match parse_assignment item, parse_assignments rest with
      | Some a, Some l => Some (a :: l)
      | _, _ => None
      end
  end.

Definition parse_update (query : string) : option UpdateStmt :=
  match strip_prefix "UPDATE todos SET " query with
  | None => None
  | Some body =>
      match split_at " WHERE id = $" body with
      | None => None
      | Some (sets, tail) =>
          match split_at returning_clause tail with
          | Some (n, EmptyString) =>
              match parse_assignments (split_comma sets), atoi n with
              | Some l, Some w => Some {| assignments := l; where_id := w |}
              | _, _ => None
              end
          | _ => None
          end
      end
  end.

(** The argument that [$n] names. *)
Definition bind_param (args : list Arg) (n : Z) : option Arg :=
  if n <? 1 then None else nth_error args (Z.to_nat (n - 1)).

Definition set_column (c : Column) (a : Arg) (t : Todo) : option Todo :=
  match c, a with
  | col_title, ArgString s =>
      Some {| ID := ID t; Title := s; Description := Description t;
              Completed := Completed t; CreatedAt := CreatedAt t;
              UpdatedAt := UpdatedAt t |}
  | col_description, ArgString s =>
      Some {| ID := ID t; Title := Title t; Description := s;
              Completed := Completed t; CreatedAt := CreatedAt t;
              UpdatedAt := UpdatedAt t |}
  | col_completed, ArgBool b =>
      Some {| ID := ID t; Title := Title t; Description := Description t;
              Completed := b; CreatedAt := CreatedAt t;
              UpdatedAt := UpdatedAt t |}
  | _, _ => None
  end.

Fixpoint apply_assignments (l : list (Column * Z)) (args : list Arg)
    (t : Todo) : option Todo :=
  match l with
  | [] => Some t
  | (c, n) :: rest =>
      match bind_param args n with
      | None => None
      | Some a =>
          match set_column c a t with
          | None => None
          | Some t' => apply_assignments rest args t'
          end
      end
  end.

(** The trigger function: [NEW.updated_at = NOW(); RETURN NEW]. *)
Definition update_updated_at_column (now : Timestamp) (NEW : Todo) : Todo :=
  {| ID := ID NEW; Title := Title NEW; Description := Description NEW;
     Completed := Completed NEW; CreatedAt := CreatedAt NEW;
     UpdatedAt := now |}.

(** The rows after the update, and the rows it returns.  [None]: a
    placeholder without an argument or of the wrong type. *)
Fixpoint update_rows (l : list (Column * Z)) (args : list Arg)
    (now : Timestamp) (id : Z) (rs : list Todo)
  : option (list Todo * list Todo) :=
  match rs with
  | [] => Some ([], [])
  | r :: rest =>
      match update_rows l args now id rest with
      | None => None
      | Some (rest', returned) =>
          if ID r =? id then
            match apply_assignments l args r with
            | None => None
            | Some r' =>
                let r'' := update_updated_at_column now r' in
                Some (r'' :: rest', r'' :: returned)
            end
          else Some (r :: rest', returned)
      end
  end.

(** The largest placeholder number of the statement. *)
Definition param_count (stmt : UpdateStmt) : Z :=
  fold_right Z.max (where_id stmt) (map snd (assignments stmt)).

(** [UPDATE todos SET ... WHERE id = $n RETURNING ...]: the store refuses
    a text it cannot read, a number of arguments other than the number of
    placeholders, and an argument of the wrong type. *)
Definition update_returning (st : Store) (now : Timestamp) (query : string)
    (args : list Arg) : option (Store * list Todo) :=
  match parse_update query with
  | None => None
  | Some stmt =>
      if negb (Z.of_nat (List.length args) =? param_count stmt) then None
      else
        match bind_param args (where_id stmt) with
        | Some (ArgInt id) =>
            match update_rows (assignments stmt) args now id (rows st) with
            | None => None
            | Some (rows', returned) =>
                Some ({| rows := rows'; todos_id_seq := todos_id_seq st |},
                      returned)
            end
        | _ => None
        end
  end.

(** ** The connection pool

    One function per statement the repository sends.  [QueryRow(...).Scan]
    yields the first row of the answer, [pgx.ErrNoRows] when there is none,
    and the driver's error when the call is aborted; an aborted call leaves
    the store as it was. *)

Module pool.

Definition Scan (answer : list Todo) : result Todo :=
  match answer with
  | [] => Err pgx_ErrNoRows
  | row :: _ => Ok row
  end.

Definition QueryRow_insert (st : Store) (o : StoreOutcome) (now : Timestamp)
    (title description : string) (completed : bool)
  : Store * result Todo :=
  match o with
  | Aborts f => (st, Err (Driver f))
  | Executes =>
      let (st', row) := insert_returning st now title description completed in
      (st', Scan [row])
  end.

Definition QueryRow_select (st : Store) (o : StoreOutcome) (id : Z)
  : result Todo :=
  match o with
  | Aborts f => Err (Driver f)
  | Executes => Scan (select_by_id st id)
  end.

Definition QueryRow_count (st : Store) (o : StoreOutcome)
    (completed : option bool) : result Z :=
  match o with
  | Aborts f => Err (Driver f)
  | Executes => Ok (select_count st completed)
  end.

Definition QueryRow_update (st : Store) (o : StoreOutcome) (now : Timestamp)
    (query : string) (args : list Arg) : Store * result Todo :=
  match o with
  | Aborts f => (st, Err (Driver f))
  | Executes =>
      match update_returning st now query args with
      | None => (st, Err (Driver StatementRefused))
      | Some (st', returned) => (st', Scan returned)
      end
  end.

Definition Exec_delete (st : Store) (o : StoreOutcome) (id : Z)
  : Store * result Z :=
  match o with
  | Aborts f => (st, Err (Driver f))
  | Executes => let (st', affected) := delete_by_id st id in (st', Ok affected)
  end.

(** [pool.Query] and the loop over its rows can fail at three places:
    the call itself, a [rows.Scan], and the final [rows.Err()]. *)
Inductive QueryStage : Type := AtQuery | AtScan | AtRowsErr.

Inductive RowsOutcome : Type :=
| RowsExecute
| RowsAbort (stage : QueryStage) (f : DriverFault).

(** A statement the store refuses while running it is reported by
    [rows.Err()]. *)
Definition Query_page (st : Store) (o : RowsOutcome)
    (completed : option bool) (limit offset : Z)
  : list Todo + QueryStage * error :=
  match o with
  | RowsAbort stage f => inr (stage, Driver f)
  | RowsExecute =>
      match select_page st completed limit offset with
      | None => inr (AtRowsErr, Driver StatementRefused)
      | Some todos => inl todos
      end
  end.

End pool.

(** ** package repository *)

Module repository.

Definition Create (st : Store) (o : StoreOutcome) (now : Timestamp)
    (req : CreateTodoRequest) : Store * result Todo :=
  match pool.QueryRow_insert st o now (create_Title req)
          (create_Description req) (create_Completed req) with
  | (st', Err err) => (st', Err (Errorf "failed to create todo: " err))
  | (st', Ok todo) => (st', Ok todo)
  end.

Definition GetByID (st : Store) (o : StoreOutcome) (id : Z) : result Todo :=
  match pool.QueryRow_select st o id with
  | Err err =>
      if errors_Is err pgx_ErrNoRows then Err ErrNotFound
      else Err (Errorf "failed to get todo: " err)
  | Ok todo => Ok todo
  end.

Definition normalize_page (page : Z) : Z :=
  if page <? 1 then 1 else page.

Definition normalize_pageSize (pageSize : Z) : Z :=
  if (pageSize <? 1) || (pageSize >? 100) then 10 else pageSize.

(** [offset := (page - 1) * pageSize] on the normalized values. *)
Definition list_offset (page pageSize : Z) : Z :=
  GoInt.mul (GoInt.sub (normalize_page page) 1) (normalize_pageSize pageSize).

Definition List (st : Store) (o_count : StoreOutcome)
    (o_list : pool.RowsOutcome) (page pageSize : Z)
    (completed : option bool) : result (list Todo * Z) :=
  let page := if page <? 1 then 1 else page in
  let pageSize :=
    if (pageSize <? 1) || (pageSize >? 100) then 10 else pageSize in
  let offset := GoInt.mul (GoInt.sub page 1) pageSize in
  match pool.QueryRow_count st o_count completed with
  | Err err => Err (Errorf "failed to count todos: " err)
  | Ok total =>
      match pool.Query_page st o_list completed pageSize offset with
      | inr (pool.AtQuery, err) => Err (Errorf "failed to list todos: " err)
      | inr (pool.AtScan, err) => Err (Errorf "failed to scan todo: " err)
      | inr (pool.AtRowsErr, err) =>
          Err (Errorf "error iterating todos: " err)
      | inl todos => Ok (todos, total)
      end
  end.

Definition joinStrings (strs : list string) (sep : string) : string :=
  match strs with
  | [] => EmptyString
  | first :: rest =>
      fold_left (fun result s => (result ++ (sep ++ s))%string) rest first
  end.

(** The three variables the query builder of [Update] threads. *)
Record Builder : Type := mkBuilder {
  updates : list string;
  args : list Arg;
  argPosition : Z
}.

(** The body of each [if req.F != nil]: append ["column = $n"], append the
    value, advance the position. *)
Definition supply (column : string) (value : Arg) (b : Builder) : Builder :=
  {| updates := updates b ++ [(column ++ " = $" ++ itoa (argPosition b))%string];
     args := args b ++ [value];
     argPosition := GoInt.add (argPosition b) 1 |}.

Definition build (req : UpdateTodoRequest) : Builder :=
  let b := {| updates := []; args := []; argPosition := 1 |} in
  let b := match update_Title req with
           | Some title => supply "title" (ArgString title) b
           | None => b
           end in
  let b := match update_Description req with
           | Some description => supply "description" (ArgString description) b
           | None => b
           end in
  match update_Completed req with
  | Some completed => supply "completed" (ArgBool completed) b
  | None => b
  end.

Definition update_query (b : Builder) : string :=
  ("UPDATE todos SET "
     ++ (joinStrings (updates b) ", " ++ " WHERE id = $"
           ++ itoa (argPosition b) ++ returning_clause))%string.

Definition update_args (b : Builder) (id : Z) : list Arg :=
  args b ++ [ArgInt id].

Definition Update (st : Store) (o_get o_update : StoreOutcome)
    (now : Timestamp) (id : Z) (req : UpdateTodoRequest)
  : Store * result Todo :=
  match GetByID st o_get id with
  | Err err => (st, Err err)
  | Ok existing =>
      let b := build req in
      if (List.length (updates b) =? 0)%nat then (st, Ok existing)
      else
        match pool.QueryRow_update st o_update now (update_query b)
                (update_args b id) with
        | (st', Err err) => (st', Err (Errorf "failed to update todo: " err))
        | (st', Ok todo) => (st', Ok todo)
        end
  end.

(** [None] is the nil error. *)
Definition Delete (st : Store) (o : StoreOutcome) (id : Z)
  : Store * option error :=
  match pool.Exec_delete st o id with
  | (st', Err err) => (st', Some (Errorf "failed to delete todo: " err))
  | (st', Ok affected) =>
      if affected =? 0 then (st', Some ErrNotFound) else (st', None)
  end.

End repository.

(** ** package service: the repository behind logging calls *)

Module service.

Definition GetTodo := repository.GetByID.
Definition ListTodos := repository.List.
Definition UpdateTodo := repository.Update.
Definition DeleteTodo := repository.Delete.

End service.

(** ** package handler *)

Module handler.

Inductive Body : Type :=
| NoBody
| ErrorResponse (Error Message : string)
| TodoBody (todo : Todo)
| ListBody (todos : list Todo) (total : Z).

Record Response : Type := mkResponse {
  Status : Z;
  body : Body
}.

Definition StatusOK : Z := 200.
Definition StatusNoContent : Z := 204.
Definition StatusBadRequest : Z := 400.
Definition StatusNotFound : Z := 404.
Definition StatusInternalServerError : Z := 500.

(** The query string of a request: keys with their values, in order. *)
Definition Values := list (string * string).

Fixpoint GetQuery (q : Values) (key : string) : option string :=
  match q with
  | [] => None
  | (k, v) :: rest => if String.eqb k key then Some v else GetQuery rest key
  end.

Definition Query (q : Values) (key : string) : string :=
  match GetQuery q key with
  | Some v => v
  | None => EmptyString
  end.

Definition DefaultQuery (q : Values) (key defaultValue : string) : string :=
  match GetQuery q key with
  | Some v => v
  | None => defaultValue
  end.

(** [var completed *bool; if completedStr != "" { completedVal :=
    completedStr == "true"; completed = &completedVal }] *)
Definition completed_filter (completedStr : string) : option bool :=
  if negb (String.eqb completedStr EmptyString)
  then Some (String.eqb completedStr "true")
  else None.

Section WithAtoi.

(** [strconv.Atoi] of the Go standard library; [None] is its error. *)
Variable Atoi : string -> option Z.

Definition page_param (q : Values) : Z :=
  let pageStr := DefaultQuery q "page" "1" in
  if negb (String.eqb pageStr EmptyString) then
    match Atoi pageStr with
    | Some p => p
    | None => 1
    end
  else 1.

Definition pageSize_param (q : Values) : Z :=
  let pageSizeStr := DefaultQuery q "page_size" "10" in
  if negb (String.eqb pageSizeStr EmptyString) then
    match Atoi pageSizeStr with
    | Some ps => ps
    | None => 10
    end
  else 10.

Definition ListTodos (st : Store) (o_count : StoreOutcome)
    (o_list : pool.RowsOutcome) (q : Values) : Response :=
  let page := page_param q in
  let pageSize := pageSize_param q in
  let completed := completed_filter (Query q "completed") in
  match service.ListTodos st o_count o_list page pageSize completed with
  | Err _ =>
      {| Status := StatusInternalServerError;
         body := ErrorResponse "internal_error" "Failed to list todos" |}
  | Ok (todos, total) =>
      {| Status := StatusOK; body := ListBody todos total |}
  end.

Definition GetTodo (st : Store) (o : StoreOutcome) (idParam : string)
  : Response :=
  match Atoi idParam with
  | None =>
      {| Status := StatusBadRequest;
         body := ErrorResponse "invalid_id" "Invalid todo ID" |}
  | Some id =>
      match service.GetTodo st o id with
      | Err err =>
          if errors_Is err ErrNotFound then
            {| Status := StatusNotFound;
               body := ErrorResponse "not_found" "Todo not found" |}
          else
            {| Status := StatusInternalServerError;
               body := ErrorResponse "internal_error" "Failed to get todo" |}
      | Ok todo => {| Status := StatusOK; body := TodoBody todo |}
      end
  end.

Definition DeleteTodo (st : Store) (o : StoreOutcome) (idParam : string)
  : Store * Response :=
  match Atoi idParam with
  | None =>
      (st, {| Status := StatusBadRequest;
              body := ErrorResponse "invalid_id" "Invalid todo ID" |})
  | Some id =>
      match service.DeleteTodo st o id with
      | (st', Some err) =>
          if errors_Is err ErrNotFound then
            (st', {| Status := StatusNotFound;
                     body := ErrorResponse "not_found" "Todo not found" |})
          else
            (st', {| Status := StatusInternalServerError;
                     body := ErrorResponse "internal_error"
                               "Failed to delete todo" |})
      | (st', None) => (st', {| Status := StatusNoContent; body := NoBody |})
      end
  end.

End WithAtoi.

End handler.

(** ** Notions the properties are stated with *)

(** The least [n] with [a <= n * b], for a positive [b]. *)
Definition ceil_div (a b : Z) : Z := - ((- a) / b).

(** Total pages as the specification words it: the ceiling of
    [total / pageSize], and one page when there is no record. *)
Definition spec_total_pages (total pageSize : Z) : Z :=
  if total =? 0 then 1 else ceil_div total pageSize.

(** The first row with the given id, if any. *)
Definition lookup (st : Store) (id : Z) : option Todo :=
  hd_error (select_by_id st id).

(** The fields an update request supplies, in the order the builder visits
    them, each with its column and its value as an argument. *)
Definition supplied (req : UpdateTodoRequest) : list (Column * Arg) :=
  (match update_Title req with
   | Some title => [(col_title, ArgString title)]
   | None => []
   end)
  ++ (match update_Description req with
      | Some description => [(col_description, ArgString description)]
      | None => []
      end)
  ++ (match update_Completed req with
      | Some completed => [(col_completed, ArgBool completed)]
      | None => []
      end).

(** The record an update request describes, applied to an existing one at
    time [now]: supplied fields replaced, the others kept, [updated_at]
    refreshed. *)
Definition updated_record (req : UpdateTodoRequest) (now : Timestamp)
    (existing : Todo) : Todo :=
  {| ID := ID existing;
     Title := match update_Title req with
              | Some title => title
              | None => Title existing
              end;
     Description := match update_Description req with
                    | Some description => description
                    | None => Description existing
                    end;
     Completed := match update_Completed req with
                  | Some completed => completed
                  | None => Completed existing
                  end;
     CreatedAt := CreatedAt existing;
     UpdatedAt := now |}.

(** The placeholder numbers [first, first + 1, ...] for [n] fields. *)
Fixpoint positions (first : Z) (n : nat) : list Z :=
  match n with
  | O => []
  | S n' => first :: positions (first + 1) n'
  end.

(** The text ["column = $n"] of one assignment. *)
Definition assignment_text (a : Column * Z) : string :=
  (Column_name (fst a) ++ " = $" ++ itoa (snd a))%string.

(** The two queries of a listing, for a limit and an offset already
    computed. *)
Definition list_queries (st : Store) (o_count : StoreOutcome)
    (o_list : pool.RowsOutcome) (limit offset : Z) (completed : option bool)
  : result (list Todo * Z) :=
  match pool.QueryRow_count st o_count completed with
  | Err err => Err (Errorf "failed to count todos: " err)
  | Ok total =>
      match pool.Query_page st o_list completed limit offset with
      | inr (pool.AtQuery, err) => Err (Errorf "failed to list todos: " err)
      | inr (pool.AtScan, err) => Err (Errorf "failed to scan todo: " err)
      | inr (pool.AtRowsErr, err) => Err (Errorf "error iterating todos: " err)
      | inl todos => Ok (todos, total)
      end
  end.

(** Newest first. *)
Definition newer_or_equal (a b : Todo) : Prop := CreatedAt b <= CreatedAt a.

(** The writing calls of the repository, each with the outcome of its store
    calls and the time of its statement. *)
Inductive Call : Type :=
| CallCreate (o : StoreOutcome) (now : Timestamp) (req : CreateTodoRequest)
| CallUpdate (o_get o_update : StoreOutcome) (now : Timestamp) (id : Z)
    (req : UpdateTodoRequest)
| CallDelete (o : StoreOutcome) (id : Z).

(** One call: the next store and the record it created, if it is a
    successful [Create]. *)
Definition step (st : Store) (c : Call) : Store * list Todo :=
  match c with
  | CallCreate o now req =>
      match repository.Create st o now req with
      | (st', Ok todo) => (st', [todo])
      | (st', Err _) => (st', [])
      end
  | CallUpdate o_get o_update now id req =>
      (fst (repository.Update st o_get o_update now id req), [])
  | CallDelete o id => (fst (repository.Delete st o id), [])
  end.

(** A sequence of calls: the final store and every record ever created. *)
Fixpoint run (st : Store) (calls : list Call) : Store * list Todo :=
  match calls with
  | [] => (st, [])
  | c :: rest =>
      let (st1, created1) := step st c in
      let (st2, created2) := run st1 rest in
      (st2, created1 ++ created2)
  end.



(** What the list handler answers for a result of the service. *)
Definition list_response (r : result (list Todo * Z)) : handler.Response :=
  match r with
  | Err _ =>
      {| handler.Status := handler.StatusInternalServerError;
         handler.body :=
           handler.ErrorResponse "internal_error" "Failed to list todos" |}
  | Ok (todos, total) =>
      {| handler.Status := handler.StatusOK;
         handler.body := handler.ListBody todos total |}
  end.

(** The page of a sequence: [limit] items after the first [offset]. *)
Definition page_slice (limit offset : Z) (l : list Todo) : list Todo :=
  firstn (Z.to_nat limit) (skipn (Z.to_nat offset) l).

(** Every id in the table was drawn from the sequence. *)
Definition ids_from_sequence (st : Store) : Prop :=
  Forall (fun t => ID t <= todos_id_seq st) (rows st).


(** A store for closed examples: three records, the second completed. *)
Definition sample_store : Store :=
  {| rows :=
       [ {| ID := 1; Title := "Buy milk"; Description := EmptyString;
            Completed := false; CreatedAt := 100; UpdatedAt := 100 |};
         {| ID := 2; Title := "Pay rent"; Description := "before Friday";
            Completed := true; CreatedAt := 200; UpdatedAt := 250 |};
         {| ID := 4; Title := "Call home"; Description := EmptyString;
            Completed := false; CreatedAt := 300; UpdatedAt := 300 |} ];
     todos_id_seq := 4 |}.

(** A decimal reader standing for [strconv.Atoi] in closed examples. *)
Definition decimal_Atoi (s : string) : option Z := atoi s.

(** ** The rest of the mapper, the service and the handler *)

(** [responses[i] = x]; [None] is the panic of an index out of range. *)
Fixpoint set_index (responses : list TodoResponse) (i : nat)
    (x : TodoResponse) : option (list TodoResponse) :=
  match responses, i with
  | [], _ => None
  | _ :: rest, O => Some (x :: rest)
  | y :: rest, S i' =>
      match set_index rest i' x with
      | Some rest' => Some (y :: rest')
      | None => None
      end
  end.

(** The zero value a fresh slice is filled with. *)
Definition zero_TodoResponse : TodoResponse :=
  {| resp_ID := 0; resp_Title := EmptyString; resp_Description := EmptyString;
     resp_Completed := false; resp_CreatedAt := 0; resp_UpdatedAt := 0 |}.

(** [for i, todo := range todos { responses[i] = ToTodoResponse(&todo) }],
    from index [i] on. *)
Fixpoint range_todos (i : nat) (todos : list Todo)
    (responses : list TodoResponse) : option (list TodoResponse) :=
  match todos with
  | [] => Some responses
  | todo :: rest =>
      match set_index responses i (ToTodoResponse todo) with
      | Some responses' => range_todos (S i) rest responses'
      | None => None
      end
  end.

(** [ToTodoResponseList] as its body is written:
    [responses := make([]TodoResponse, len(todos))], then the loop. *)
Definition ToTodoResponseList_loop (todos : list Todo)
  : option (list TodoResponse) :=
  range_todos 0 todos (repeat zero_TodoResponse (List.length todos)).

Module todo_service.

Definition CreateTodo := repository.Create.

End todo_service.

Module todo_handler.

Definition StatusCreated : Z := 201.

(** [c.ShouldBindJSON(&req)]: the request it decoded and validated, or the
    error whose text goes into the answer. *)
Inductive Binding (A : Type) : Type :=
| Bound (req : A)
| BindError (message : string).

Arguments Bound {A} req.
Arguments BindError {A} message.

Definition CreateTodo (st : Store) (o : StoreOutcome) (now : Timestamp)
    (bound : Binding CreateTodoRequest) : Store * handler.Response :=
  match bound with
  | BindError message =>
      (st, {| handler.Status := handler.StatusBadRequest;
              handler.body := handler.ErrorResponse "validation_error" message |})
  | Bound req =>
      match todo_service.CreateTodo st o now req with
      | (st', Err _) =>
          (st', {| handler.Status := handler.StatusInternalServerError;
                   handler.body := handler.ErrorResponse "internal_error"
                                     "Failed to create todo" |})
      | (st', Ok todo) =>
          (st', {| handler.Status := StatusCreated;
                   handler.body := handler.TodoBody todo |})
      end
  end.

Section WithAtoi.

(** [strconv.Atoi] of the Go standard library; [None] is its error. *)
Variable Atoi : string -> option Z.

Definition UpdateTodo (st : Store) (o_get o_update : StoreOutcome)
    (now : Timestamp) (idParam : string) (bound : Binding UpdateTodoRequest)
  : Store * handler.Response :=
  match Atoi idParam with
  | None =>
      (st, {| handler.Status := handler.StatusBadRequest;
              handler.body := handler.ErrorResponse "invalid_id"
                                "Invalid todo ID" |})
  | Some id =>
      match bound with
      | BindError message =>
          (st, {| handler.Status := handler.StatusBadRequest;
                  handler.body :=
                    handler.ErrorResponse "validation_error" message |})
      | Bound req =>
          match service.UpdateTodo st o_get o_update now id req with
          | (st', Err err) =>
              if errors_Is err ErrNotFound then
                (st', {| handler.Status := handler.StatusNotFound;
                         handler.body := handler.ErrorResponse "not_found"
                                           "Todo not found" |})
              else
                (st', {| handler.Status := handler.StatusInternalServerError;
                         handler.body := handler.ErrorResponse "internal_error"
                                           "Failed to update todo" |})
          | (st', Ok todo) =>
              (st', {| handler.Status := handler.StatusOK;
                       handler.body := handler.TodoBody todo |})
          end
      end
  end.

End WithAtoi.

End todo_handler.

(** Two rows that agree on what an update never writes: the id and the
    time of creation. *)
Definition same_identity (r r' : Todo) : Prop :=
  ID r' = ID r /\ CreatedAt r' = CreatedAt r.

(** The rows of a store with the given [completed] value, or all of them,
    newest first: what the pages of a listing are cut from. *)
Definition listing (st : Store) (completed : option bool) : list Todo :=
  order_by_created_at_desc (filter (matches completed) (rows st)).

(** A row after a statement: same id and creation time, and the very
    same row unless the statement was aimed at its id. *)
Definition kept_by_update (id : Z) (r r' : Todo) : Prop :=
  same_identity r r' /\ (ID r <> id -> r' = r).

(** No row was updated before it was created. *)
Definition timestamps_ordered (st : Store) : Prop :=
  Forall (fun r => CreatedAt r <= UpdatedAt r) (rows st).

(** The time of the statement a call writes with, if it has one. *)
Definition call_time (c : Call) : list Timestamp :=
  match c with
  | CallCreate _ now _ => [now]
  | CallUpdate _ _ now _ _ => [now]
  | CallDelete _ _ => []
  end.

(** The times of the writing statements of a run, in the order of the run. *)
Definition times (calls : list Call) : list Timestamp :=
  flat_map call_time calls.

(** ** package database: opening the pool *)

Module database.

(** The conversion [int32(n)] of an [int]. *)
Definition int32 (z : Z) : Z := (z + 2 ^ 31) mod 2 ^ 32 - 2 ^ 31.

(** The fields of [config.DatabaseConfig] that [New] reads besides those of
    the connection string. *)
Record DatabaseConfig : Type := mkDatabaseConfig {
  MaxOpenConns : Z;
  MaxIdleConns : Z;
  ConnMaxLifetime : Z
}.

(** The fields of [pgxpool.Config] that [New] writes; durations are in
    nanoseconds. *)
Record PoolConfig : Type := mkPoolConfig {
  MaxConns : Z;
  MinConns : Z;
  MaxConnLifetime : Z;
  MaxConnIdleTime : Z;
  HealthCheckPeriod : Z
}.

Definition Minute : Z := 60 * 1000000000.

(** The pool [New] leaves behind. *)
Inductive PoolState : Type :=
| NoPool
| PoolOpen (config : PoolConfig)
| PoolClosed (config : PoolConfig).

(** The block [// Configure connection pool] of [New]. *)
Definition configure (cfg : DatabaseConfig) (poolConfig : PoolConfig)
  : PoolConfig :=
  let poolConfig :=
    if (MaxOpenConns cfg >? 0) && (MaxOpenConns cfg <=? 2147483647)
    then {| MaxConns := int32 (MaxOpenConns cfg);
            MinConns := MinConns poolConfig;
            MaxConnLifetime := MaxConnLifetime poolConfig;
            MaxConnIdleTime := MaxConnIdleTime poolConfig;
            HealthCheckPeriod := HealthCheckPeriod poolConfig |}
    else poolConfig in
  let poolConfig :=
    if (MaxIdleConns cfg >? 0) && (MaxIdleConns cfg <=? 2147483647)
    then {| MaxConns := MaxConns poolConfig;
            MinConns := int32 (MaxIdleConns cfg);
            MaxConnLifetime := MaxConnLifetime poolConfig;
            MaxConnIdleTime := MaxConnIdleTime poolConfig;
            HealthCheckPeriod := HealthCheckPeriod poolConfig |}
    else poolConfig in
  {| MaxConns := MaxConns poolConfig;
     MinConns := MinConns poolConfig;
     MaxConnLifetime := ConnMaxLifetime cfg;
     MaxConnIdleTime := GoInt.mul 30 Minute;
     HealthCheckPeriod := GoInt.mul 1 Minute |}.

(** [New], given what [pgxpool.ParseConfig], [pgxpool.NewWithConfig] and
    [pool.Ping] answer: the database (its pool configuration) or the error,
    and the pool left behind. *)
Definition New (cfg : DatabaseConfig) (parsed : PoolConfig + error)
    (created pinged : option error) : result PoolConfig * PoolState :=
  match parsed with
  | inr err => (Err (Errorf "failed to parse database config: " err), NoPool)
  | inl poolConfig =>
      let poolConfig := configure cfg poolConfig in
      match created with
      | Some err =>
          (Err (Errorf "failed to create connection pool: " err), NoPool)
      | None =>
          match pinged with
          | Some err =>
              (Err (Errorf "failed to ping database: " err),
               PoolClosed poolConfig)
          | None => (Ok poolConfig, PoolOpen poolConfig)
          end
      end
  end.

Definition is_int32 (z : Z) : Prop := - 2 ^ 31 <= z <= 2 ^ 31 - 1.

End database.

(** ** package logger: the level of the log *)

Module logger.

(** The levels of [log/slog]. *)
Definition LevelDebug : Z := -4.
Definition LevelInfo : Z := 0.
Definition LevelWarn : Z := 4.
Definition LevelError : Z := 8.

Definition lower_byte (c : ascii) : ascii :=
  if Ascii.leb "A" c && Ascii.leb c "Z"
  then ascii_of_N (N_of_ascii c + 32)
  else c.

Definition upper_byte (c : ascii) : ascii :=
  if Ascii.leb "a" c && Ascii.leb c "z"
  then ascii_of_N (N_of_ascii c - 32)
  else c.

(** [strings.ToLower] and [strings.ToUpper] on a string of ASCII
    characters. *)
Fixpoint ToLower (s : string) : string :=
  match s with
  | EmptyString => EmptyString
  | String c s' => String (lower_byte c) (ToLower s')
  end.

Fixpoint ToUpper (s : string) : string :=
  match s with
  | EmptyString => EmptyString
  | String c s' => String (upper_byte c) (ToUpper s')
  end.

Fixpoint is_ascii (s : string) : bool :=
  match s with
  | EmptyString => true
  | String c s' => Ascii.ltb c "128" && is_ascii s'
  end.

Definition parseLevel (level : string) : Z :=
  let lowered := ToLower level in
  if String.eqb lowered "debug" then LevelDebug
  else if String.eqb lowered "info" then LevelInfo
  else if String.eqb lowered "warn" || String.eqb lowered "warning"
       then LevelWarn
  else if String.eqb lowered "error" then LevelError
  else LevelInfo.

End logger.

(** * Properties *)

(** ** Machine integers *)

Lemma wrap_in_range (z : Z) : GoInt.in_range z -> GoInt.wrap z = z.
Proof.
  unfold GoInt.in_range, GoInt.wrap, GoInt.min_int, GoInt.max_int. intros H.
  rewrite Z.mod_small; lia.
Qed.

Lemma wrap_sub_wrap (a b : Z) :
  GoInt.wrap (GoInt.wrap a - b) = GoInt.wrap (a - b).
Proof.
  unfold GoInt.wrap. f_equal.
  replace ((a + 2 ^ 63) mod 2 ^ 64 - 2 ^ 63 - b + 2 ^ 63)
    with ((a + 2 ^ 63) mod 2 ^ 64 - b) by lia.
  rewrite Zminus_mod_idemp_l. f_equal. lia.
Qed.

Lemma ceil_div_least (a b : Z) :
  0 < b -> (ceil_div a b - 1) * b < a <= ceil_div a b * b.
Proof.
  intros Hb. unfold ceil_div.
  pose proof (Z.div_mod (- a) b ltac:(lia)) as E.
  pose proof (Z.mod_pos_bound (- a) b Hb) as B.
  nia.
Qed.

Lemma ceil_div_unique (a b q : Z) :
  0 < b -> (q - 1) * b < a <= q * b -> ceil_div a b = q.
Proof.
  intros Hb Hq. pose proof (ceil_div_least a b Hb) as Hc. nia.
Qed.

Lemma ceil_div_by_rounding_up (total pageSize : Z) :
  0 <= total -> 1 <= pageSize ->
  Z.quot (total + pageSize - 1) pageSize = ceil_div total pageSize.
Proof.
  intros Ht Hp. rewrite Z.quot_div_nonneg by lia.
  symmetry. apply ceil_div_unique; [lia|].
  pose proof (Z.div_mod (total + pageSize - 1) pageSize ltac:(lia)) as E.
  pose proof (Z.mod_pos_bound (total + pageSize - 1) pageSize ltac:(lia)) as B.
  nia.
Qed.

Lemma ceil_div_zero_iff (total pageSize : Z) :
  0 <= total -> 1 <= pageSize ->
  (ceil_div total pageSize = 0 <-> total = 0).
Proof.
  intros Ht Hp. pose proof (@ceil_div_least total pageSize ltac:(lia)) as Hc.
  split; intros H; [rewrite H in Hc; lia|].
  subst. apply ceil_div_unique; lia.
Qed.

Lemma ceil_div_bounds (total pageSize : Z) :
  0 <= total -> 1 <= pageSize -> 0 <= ceil_div total pageSize <= total.
Proof.
  intros Ht Hp. pose proof (@ceil_div_least total pageSize ltac:(lia)) as Hc.
  nia.
Qed.

(** ** Total pages *)

(** C5, as the code has it: for every [total >= 0] and [pageSize >= 1]
    whose sum [total + pageSize - 1] still fits Go's [int], the listing
    response carries [TotalPages = ceil(total / pageSize)], and [1] instead
    of [0] when [total = 0]; the other fields are the arguments. *)
Theorem ToTodoListResponse_total_pages
    (todos : list Todo) (total page pageSize : Z) :
  0 <= total -> 1 <= pageSize -> total + pageSize - 1 <= GoInt.max_int ->
  exists r,
    ToTodoListResponse todos total page pageSize = Some r
    /\ TotalPages r = spec_total_pages total pageSize
    /\ (total = 0 -> TotalPages r = 1)
    /\ (total <> 0 -> TotalPages r = ceil_div total pageSize)
    /\ Total r = total /\ Page r = page /\ PageSize r = pageSize
    /\ Todos r = ToTodoResponseList todos.
Proof.
  intros Ht Hp Hfit.
  assert (Hsub : GoInt.sub (GoInt.add total pageSize) 1 = total + pageSize - 1).
  { unfold GoInt.sub, GoInt.add. rewrite wrap_sub_wrap. apply wrap_in_range.
    unfold GoInt.in_range, GoInt.min_int, GoInt.max_int in *. lia. }
  pose proof (ceil_div_bounds total pageSize Ht Hp) as Hb.
  pose proof (ceil_div_zero_iff total pageSize Ht Hp) as Hz.
  assert (Hdiv : GoInt.div (total + pageSize - 1) pageSize
                 = Some (ceil_div total pageSize)).
  { unfold GoInt.div. destruct (Z.eqb_spec pageSize 0) as [E|_]; [lia|].
    rewrite ceil_div_by_rounding_up by lia. f_equal. apply wrap_in_range.
    unfold GoInt.in_range, GoInt.min_int, GoInt.max_int in *. lia. }
  unfold ToTodoListResponse, totalPages_of. rewrite Hsub, Hdiv.
  eexists. split; [reflexivity|]. cbn [TotalPages Total Page PageSize Todos].
  unfold spec_total_pages.
  destruct (Z.eqb_spec (ceil_div total pageSize) 0) as [E|E];
    destruct (Z.eqb_spec total 0) as [E0|E0]; intuition congruence.
Qed.

Lemma ToTodoListResponse_total_pages_witness :
  exists r,
    ToTodoListResponse [] 10 1 5 = Some r /\ TotalPages r = 2.
Proof.
  destruct (@ToTodoListResponse_total_pages [] 10 1 5)
    as (r & Hr & Hpages & _); [lia | lia | unfold GoInt.max_int; lia |].
  exists r. split; [exact Hr | rewrite Hpages; reflexivity].
Defined.

(** The two listings the tests of the mapper check. *)
Example total_pages_ten_by_five :
  option_map TotalPages (ToTodoListResponse [] 10 1 5) = Some 2.
Proof. reflexivity. Qed.

Example total_pages_of_nothing :
  option_map TotalPages (ToTodoListResponse [] 0 1 10) = Some 1.
Proof. reflexivity. Qed.

(** C5 as worded fails where [total + pageSize - 1] leaves the range of
    [int]: for the largest [int] as total and a page size of two, the sum
    wraps to the smallest [int] and the pages reported are negative. *)
Lemma total_pages_wraps_at_max_int :
  0 <= GoInt.max_int /\ 1 <= 2
  /\ option_map TotalPages (ToTodoListResponse [] GoInt.max_int 1 2)
     = Some (- 4611686018427387904)
  /\ spec_total_pages GoInt.max_int 2 = 4611686018427387904
  /\ option_map TotalPages (ToTodoListResponse [] GoInt.max_int 1 2)
     <> Some (spec_total_pages GoInt.max_int 2).
Proof.
  split; [vm_compute; discriminate|].
  split; [lia|].
  split; [vm_compute; reflexivity|].
  split; [vm_compute; reflexivity|].
  vm_compute. discriminate.
Qed.

(** ** Ordering, filtering and slicing *)

Section Ordering.

Lemma insert_desc_perm (t : Todo) (l : list Todo) :
  Permutation (insert_desc t l) (t :: l).
Proof.
  induction l as [|x l IH]; cbn; [reflexivity|].
  destruct (CreatedAt x <=? CreatedAt t); [reflexivity|].
  rewrite IH. apply perm_swap.
Qed.

Lemma order_by_created_at_desc_perm (l : list Todo) :
  Permutation (order_by_created_at_desc l) l.
Proof.
  induction l as [|x l IH]; cbn; [constructor|].
  rewrite insert_desc_perm. now constructor.
Qed.

Lemma insert_desc_sorted (t : Todo) (l : list Todo) :
  StronglySorted newer_or_equal l ->
  StronglySorted newer_or_equal (insert_desc t l).
Proof.
  induction 1 as [|x l Hs IH Hx]; cbn.
  - repeat constructor.
  - destruct (Z.leb_spec (CreatedAt x) (CreatedAt t)) as [Hle|Hlt].
    + constructor; [now constructor|].
      constructor; [exact Hle|].
      eapply Forall_impl; [|exact Hx].
      unfold newer_or_equal. intros; lia.
    + constructor; [exact IH|].
      eapply Permutation_Forall; [symmetry; apply insert_desc_perm|].
      constructor; [unfold newer_or_equal; lia | exact Hx].
Qed.

Lemma order_by_created_at_desc_sorted (l : list Todo) :
  StronglySorted newer_or_equal (order_by_created_at_desc l).
Proof.
  induction l as [|x l IH]; cbn; [constructor|].
  now apply insert_desc_sorted.
Qed.

Variable A : Type.
Variable R : A -> A -> Prop.

Lemma StronglySorted_skipn (n : nat) (l : list A) :
  StronglySorted R l -> StronglySorted R (skipn n l).
Proof.
  revert l. induction n as [|n IH]; intros l Hs; [exact Hs|].
  destruct l as [|x l]; [constructor|].
  cbn. apply IH. now inversion Hs.
Qed.

Lemma Forall_firstn (P : A -> Prop) (n : nat) (l : list A) :
  Forall P l -> Forall P (firstn n l).
Proof.
  revert l. induction n as [|n IH]; intros l Hl; [constructor|].
  destruct l as [|x l]; [constructor|].
  inversion Hl; subst. cbn. constructor; auto.
Qed.

Lemma Forall_skipn (P : A -> Prop) (n : nat) (l : list A) :
  Forall P l -> Forall P (skipn n l).
Proof.
  revert l. induction n as [|n IH]; intros l Hl; [exact Hl|].
  destruct l as [|x l]; [constructor|].
  inversion Hl; subst. cbn. auto.
Qed.

Lemma StronglySorted_firstn (n : nat) (l : list A) :
  StronglySorted R l -> StronglySorted R (firstn n l).
Proof.
  revert l. induction n as [|n IH]; intros l Hs; [constructor|].
  destruct l as [|x l]; [constructor|].
  inversion Hs; subst. cbn. constructor; [auto|].
  now apply Forall_firstn.
Qed.

End Ordering.

Lemma matches_filter (completed : option bool) (l : list Todo) :
  Forall (fun t => matches completed t = true) (filter (matches completed) l).
Proof.
  apply Forall_forall. intros t Ht. now apply filter_In in Ht.
Qed.

Lemma page_slice_incl (limit offset : Z) (l : list Todo) (t : Todo) :
  In t (page_slice limit offset l) -> In t l.
Proof.
  unfold page_slice. intros H.
  rewrite <- (firstn_skipn (Z.to_nat offset) l). apply in_or_app. right.
  rewrite <- (firstn_skipn (Z.to_nat limit) (skipn (Z.to_nat offset) l)).
  apply in_or_app. now left.
Qed.

(** ** Listing *)

Lemma normalize_page_idem (page : Z) :
  repository.normalize_page (repository.normalize_page page)
  = repository.normalize_page page.
Proof.
  unfold repository.normalize_page.
  destruct (Z.ltb_spec page 1) as [H|H]; [reflexivity|].
  destruct (Z.ltb_spec page 1); [lia | reflexivity].
Qed.

Lemma normalize_pageSize_range (pageSize : Z) :
  1 <= repository.normalize_pageSize pageSize <= 100.
Proof.
  unfold repository.normalize_pageSize.
  destruct (Z.ltb_spec pageSize 1); destruct (Z.gtb_spec pageSize 100);
    cbn; lia.
Qed.

Lemma normalize_pageSize_idem (pageSize : Z) :
  repository.normalize_pageSize (repository.normalize_pageSize pageSize)
  = repository.normalize_pageSize pageSize.
Proof.
  pose proof (normalize_pageSize_range pageSize) as H.
  unfold repository.normalize_pageSize at 1.
  destruct (Z.ltb_spec (repository.normalize_pageSize pageSize) 1); [lia|].
  destruct (Z.gtb_spec (repository.normalize_pageSize pageSize) 100);
    [lia | reflexivity].
Qed.

Lemma List_queries (st : Store) (o_count : StoreOutcome)
    (o_list : pool.RowsOutcome) (page pageSize : Z) (completed : option bool) :
  repository.List st o_count o_list page pageSize completed
  = list_queries st o_count o_list (repository.normalize_pageSize pageSize)
      (repository.list_offset page pageSize) completed.
Proof. reflexivity. Qed.

Lemma list_offset_exact (page pageSize : Z) :
  GoInt.in_range page ->
  GoInt.in_range ((repository.normalize_page page - 1)
                  * repository.normalize_pageSize pageSize) ->
  repository.list_offset page pageSize
  = (repository.normalize_page page - 1)
    * repository.normalize_pageSize pageSize.
Proof.
  intros Hp Hfit. unfold repository.list_offset, GoInt.mul, GoInt.sub.
  rewrite (wrap_in_range (repository.normalize_page page - 1)).
  - now apply wrap_in_range.
  - unfold repository.normalize_page, GoInt.in_range, GoInt.min_int,
      GoInt.max_int in *.
    destruct (Z.ltb_spec page 1); lia.
Qed.

Lemma list_offset_nonneg (page pageSize : Z) :
  page <= 92233720368547758 -> 0 <= repository.list_offset page pageSize.
Proof.
  intros Hp. pose proof (normalize_pageSize_range pageSize) as Hs.
  assert (Hn : 1 <= repository.normalize_page page <= 92233720368547758).
  { unfold repository.normalize_page. destruct (Z.ltb_spec page 1); lia. }
  unfold repository.list_offset, GoInt.mul, GoInt.sub.
  rewrite (wrap_in_range (repository.normalize_page page - 1))
    by (unfold GoInt.in_range, GoInt.min_int, GoInt.max_int; lia).
  rewrite wrap_in_range; [nia|].
  unfold GoInt.in_range, GoInt.min_int, GoInt.max_int. nia.
Qed.

Lemma list_offset_of_small_page (page pageSize : Z) :
  page <= 92233720368547758 ->
  repository.list_offset page pageSize
  = (repository.normalize_page page - 1)
    * repository.normalize_pageSize pageSize.
Proof.
  intros Hp. pose proof (normalize_pageSize_range pageSize) as Hs.
  assert (Hn : 1 <= repository.normalize_page page <= 92233720368547758).
  { unfold repository.normalize_page. destruct (Z.ltb_spec page 1); lia. }
  unfold repository.list_offset, GoInt.mul, GoInt.sub.
  rewrite (wrap_in_range (repository.normalize_page page - 1))
    by (unfold GoInt.in_range, GoInt.min_int, GoInt.max_int; lia).
  apply wrap_in_range.
  unfold GoInt.in_range, GoInt.min_int, GoInt.max_int. nia.
Qed.

Lemma list_queries_executes (st : Store) (limit offset : Z)
    (completed : option bool) :
  0 <= limit -> 0 <= offset ->
  list_queries st Executes pool.RowsExecute limit offset completed
  = Ok (page_slice limit offset
          (order_by_created_at_desc (filter (matches completed) (rows st))),
        Z.of_nat (List.length (filter (matches completed) (rows st)))).
Proof.
  intros Hl Ho.
  unfold list_queries, pool.QueryRow_count, pool.Query_page, select_page.
  destruct (Z.ltb_spec limit 0); [lia|].
  destruct (Z.ltb_spec offset 0); [lia|]. reflexivity.
Qed.

(** C4, as the code has it: [List] normalizes its inputs before querying.
    A page below 1 becomes 1 and a page size outside [1, 100] becomes 10;
    listing with raw inputs is listing with the normalized ones, in
    particular page 0 of size 500 is page 1 of size 10.  The two queries run
    with the normalized page size as limit and, whenever the product fits
    Go's [int], as it does for every page up to 92233720368547758, with
    the offset [(page - 1) * pageSize] of the normalized values. *)
Theorem List_normalizes_inputs (st : Store) (o_count : StoreOutcome)
    (o_list : pool.RowsOutcome) (page pageSize : Z) (completed : option bool) :
  (page < 1 -> repository.normalize_page page = 1)
  /\ (1 <= page -> repository.normalize_page page = page)
  /\ (pageSize < 1 \/ 100 < pageSize ->
      repository.normalize_pageSize pageSize = 10)
  /\ (1 <= pageSize <= 100 -> repository.normalize_pageSize pageSize = pageSize)
  /\ repository.List st o_count o_list page pageSize completed
     = repository.List st o_count o_list (repository.normalize_page page)
         (repository.normalize_pageSize pageSize) completed
  /\ repository.List st o_count o_list 0 500 completed
     = repository.List st o_count o_list 1 10 completed
  /\ (GoInt.in_range page ->
      GoInt.in_range ((repository.normalize_page page - 1)
                      * repository.normalize_pageSize pageSize) ->
      repository.List st o_count o_list page pageSize completed
      = list_queries st o_count o_list
          (repository.normalize_pageSize pageSize)
          ((repository.normalize_page page - 1)
           * repository.normalize_pageSize pageSize)
          completed)
  /\ (page <= 92233720368547758 ->
      repository.List st o_count o_list page pageSize completed
      = list_queries st o_count o_list
          (repository.normalize_pageSize pageSize)
          ((repository.normalize_page page - 1)
           * repository.normalize_pageSize pageSize)
          completed).
Proof.
  split; [|split; [|split; [|split; [|split; [|split; [|split]]]]]].
  - unfold repository.normalize_page. destruct (Z.ltb_spec page 1); lia.
  - unfold repository.normalize_page. destruct (Z.ltb_spec page 1); lia.
  - unfold repository.normalize_pageSize.
    destruct (Z.ltb_spec pageSize 1); destruct (Z.gtb_spec pageSize 100);
      cbn; lia.
  - unfold repository.normalize_pageSize.
    destruct (Z.ltb_spec pageSize 1); destruct (Z.gtb_spec pageSize 100);
      cbn; lia.
  - rewrite !List_queries. unfold repository.list_offset.
    now rewrite normalize_page_idem, !normalize_pageSize_idem.
  - reflexivity.
  - intros Hp Hfit. rewrite List_queries.
    now rewrite (list_offset_exact page pageSize Hp Hfit).
  - intros Hp. rewrite List_queries.
    now rewrite (list_offset_of_small_page page pageSize Hp).
Qed.

Lemma List_normalizes_inputs_witness :
  repository.normalize_page (-3) = 1
  /\ repository.normalize_pageSize 500 = 10
  /\ repository.List sample_store Executes pool.RowsExecute 2 2 None
     = list_queries sample_store Executes pool.RowsExecute 2 2 None.
Proof.
  destruct (List_normalizes_inputs sample_store Executes pool.RowsExecute
              (-3) 500 None) as (Hpage & _ & Hsize & _).
  destruct (List_normalizes_inputs sample_store Executes pool.RowsExecute
              2 2 None) as (_ & _ & _ & _ & _ & _ & _ & Hoff).
  split; [apply Hpage; lia|].
  split; [apply Hsize; lia|].
  rewrite Hoff by lia. reflexivity.
Defined.

(** C4 as worded fails for the offset: for the largest [int] as page and
    a page size of 10 the product wraps around, the offset used is [-20]
    and not [(page - 1) * pageSize], and the listing differs from the one
    at that offset. *)
Lemma offset_wraps_for_largest_page :
  GoInt.in_range GoInt.max_int
  /\ repository.normalize_page GoInt.max_int = GoInt.max_int
  /\ repository.normalize_pageSize 10 = 10
  /\ repository.list_offset GoInt.max_int 10 = -20
  /\ (GoInt.max_int - 1) * 10 = 92233720368547758060
  /\ repository.list_offset GoInt.max_int 10
     <> (repository.normalize_page GoInt.max_int - 1)
        * repository.normalize_pageSize 10
  /\ repository.List sample_store Executes pool.RowsExecute GoInt.max_int 10
       None
     <> list_queries sample_store Executes pool.RowsExecute
          (repository.normalize_pageSize 10)
          ((repository.normalize_page GoInt.max_int - 1)
           * repository.normalize_pageSize 10)
          None.
Proof.
  split; [vm_compute; split; discriminate|].
  split; [reflexivity|]. split; [reflexivity|].
  split; [vm_compute; reflexivity|]. split; [reflexivity|].
  split; [vm_compute; discriminate|].
  rewrite list_queries_executes by (vm_compute; discriminate).
  assert (E : exists err,
             repository.List sample_store Executes pool.RowsExecute
               GoInt.max_int 10 None = Err err)
    by (eexists; vm_compute; reflexivity).
  destruct E as (err & ->). discriminate.
Qed.

(** What a successful listing returns. *)
Lemma List_returns (st : Store) (o_count : StoreOutcome)
    (o_list : pool.RowsOutcome) (page pageSize : Z) (completed : option bool)
    (todos : list Todo) (total : Z) :
  repository.List st o_count o_list page pageSize completed
  = Ok (todos, total) ->
  todos = page_slice (repository.normalize_pageSize pageSize)
            (repository.list_offset page pageSize)
            (order_by_created_at_desc (filter (matches completed) (rows st)))
  /\ total = Z.of_nat (List.length (filter (matches completed) (rows st))).
Proof.
  rewrite List_queries.
  unfold list_queries, pool.QueryRow_count, pool.Query_page, select_page.
  destruct o_count as [|f]; [|discriminate].
  destruct o_list as [|[| |] f]; try discriminate.
  destruct ((_ <? 0) || (_ <? 0)); [discriminate|].
  intros H. injection H as <- <-. split; reflexivity.
Qed.

Lemma page_slice_matches (completed : option bool) (limit offset : Z)
    (l : list Todo) :
  Forall (fun t => matches completed t = true)
    (page_slice limit offset
       (order_by_created_at_desc (filter (matches completed) l))).
Proof.
  apply Forall_firstn, Forall_skipn.
  eapply Permutation_Forall; [symmetry; apply order_by_created_at_desc_perm|].
  apply matches_filter.
Qed.

(** C6, as the code has it: a listing that succeeds returns matching
    rows only, newest first, and the count of all matching rows whatever the
    page; with a filter every returned record has the requested [completed]
    value.  For every page up to 92233720368547758, when the store executes
    both queries, the listing succeeds and returns the requested page: the
    [pageSize] rows after the first [(page - 1) * pageSize] of the matching
    rows in that order. *)
Theorem List_ordered_filtered_counted (st : Store) (o_count : StoreOutcome)
    (o_list : pool.RowsOutcome) (page pageSize : Z) (completed : option bool) :
  let matching := filter (matches completed) (rows st) in
  let limit := repository.normalize_pageSize pageSize in
  (forall todos total,
      repository.List st o_count o_list page pageSize completed
      = Ok (todos, total) ->
      StronglySorted newer_or_equal todos
      /\ Forall (fun t => matches completed t = true) todos
      /\ (forall c, completed = Some c ->
                    Forall (fun t => Completed t = c) todos)
      /\ (forall t, In t todos -> In t (rows st))
      /\ total = Z.of_nat (List.length matching)
      /\ todos = page_slice limit (repository.list_offset page pageSize)
                   (order_by_created_at_desc matching))
  /\ (page <= 92233720368547758 ->
      repository.List st Executes pool.RowsExecute page pageSize completed
      = Ok (page_slice limit ((repository.normalize_page page - 1) * limit)
              (order_by_created_at_desc matching),
            Z.of_nat (List.length matching)))
  /\ Permutation (order_by_created_at_desc matching) matching
  /\ StronglySorted newer_or_equal (order_by_created_at_desc matching).
Proof.
  intros matching limit. split; [|split; [|split]].
  - intros todos total H. apply List_returns in H.
    fold limit matching in H. destruct H as (Htodos & Htotal).
    assert (Hall : Forall (fun t => matches completed t = true) todos)
      by (subst todos; apply page_slice_matches).
    split; [|split; [|split; [|split; [|split]]]].
    + subst todos. apply StronglySorted_firstn, StronglySorted_skipn.
      apply order_by_created_at_desc_sorted.
    + exact Hall.
    + intros c ->. eapply Forall_impl; [|exact Hall].
      cbn. intros t Ht. now apply Bool.eqb_prop in Ht.
    + intros t Ht. subst todos. apply page_slice_incl in Ht.
      eapply Permutation_in in Ht; [|apply order_by_created_at_desc_perm].
      unfold matching in Ht. now apply filter_In in Ht.
    + exact Htotal.
    + exact Htodos.
  - intros Hp. rewrite List_queries.
    pose proof (list_offset_nonneg page pageSize Hp) as Hoff.
    pose proof (normalize_pageSize_range pageSize) as Hl.
    rewrite list_queries_executes by lia.
    now rewrite (list_offset_of_small_page page pageSize Hp).
  - apply order_by_created_at_desc_perm.
  - apply order_by_created_at_desc_sorted.
Qed.

Lemma List_ordered_filtered_counted_witness :
  exists todos total,
    repository.List sample_store Executes pool.RowsExecute 1 2 (Some false)
    = Ok (todos, total)
    /\ map ID todos = [4; 1]
    /\ Forall (fun t => Completed t = false) todos
    /\ total = 2.
Proof.
  destruct (List_ordered_filtered_counted sample_store Executes
              pool.RowsExecute 1 2 (Some false)) as (Hprops & Hruns & _).
  specialize (Hruns ltac:(lia)).
  destruct (Hprops _ _ Hruns) as (_ & _ & Hfilter & _).
  do 2 eexists. split; [exact Hruns|].
  split; [reflexivity|]. split; [now apply Hfilter | reflexivity].
Defined.

(** C6 as worded fails for the slice: page 4611686018427387905 of size
    100 lies beyond every record, yet its offset wraps around to 0 and the
    listing returns the first page. *)
Lemma large_page_returns_first_page :
  repository.List sample_store Executes pool.RowsExecute
    4611686018427387905 100 None
  = Ok (order_by_created_at_desc (rows sample_store), 3)
  /\ map ID (order_by_created_at_desc (rows sample_store)) = [4; 2; 1]
  /\ page_slice (repository.normalize_pageSize 100)
       ((repository.normalize_page 4611686018427387905 - 1)
        * repository.normalize_pageSize 100)
       (order_by_created_at_desc (rows sample_store)) = []
  /\ repository.List sample_store Executes pool.RowsExecute
       4611686018427387905 100 None
     <> Ok (page_slice (repository.normalize_pageSize 100)
              ((repository.normalize_page 4611686018427387905 - 1)
               * repository.normalize_pageSize 100)
              (order_by_created_at_desc (rows sample_store)), 3).
Proof.
  assert (Hlist : repository.List sample_store Executes pool.RowsExecute
                    4611686018427387905 100 None
                  = Ok (order_by_created_at_desc (rows sample_store), 3))
    by (vm_compute; reflexivity).
  assert (Hslice : page_slice (repository.normalize_pageSize 100)
                     ((repository.normalize_page 4611686018427387905 - 1)
                      * repository.normalize_pageSize 100)
                     (order_by_created_at_desc (rows sample_store)) = []).
  { unfold page_slice. rewrite skipn_all2; [apply firstn_nil|].
    change (List.length (order_by_created_at_desc (rows sample_store)))
      with 3%nat.
    change (repository.normalize_page 4611686018427387905)
      with 4611686018427387905.
    change (repository.normalize_pageSize 100) with 100. lia. }
  split; [exact Hlist|]. split; [reflexivity|]. split; [exact Hslice|].
  rewrite Hlist, Hslice. vm_compute. discriminate.
Qed.

(** ** The [completed] parameter of the list endpoint *)

Lemma Forall_not_completed (todos : list Todo) (total : Z) (st : Store)
    (o_count : StoreOutcome) (o_list : pool.RowsOutcome) (page pageSize : Z) :
  repository.List st o_count o_list page pageSize (Some false)
  = Ok (todos, total) ->
  Forall (fun t => Completed t = false) todos.
Proof.
  intros H. apply List_returns in H. destruct H as (-> & _).
  eapply Forall_impl; [|apply page_slice_matches].
  cbn. intros t Ht. now apply Bool.eqb_prop in Ht.
Qed.

(** C10: for every non-empty value [s] of the query parameter
    [completed], the list handler passes a present filter whose value is
    [s == "true"].  The request is never answered with a bad-request status
    on account of that value; a value other than ["true"], such as ["True"],
    ["1"] or ["banana"], lists the records that are not completed. *)
Theorem ListTodos_completed_filter (Atoi : string -> option Z) (st : Store)
    (o_count : StoreOutcome) (o_list : pool.RowsOutcome)
    (q : handler.Values) (s : string) :
  handler.GetQuery q "completed" = Some s ->
  s <> EmptyString ->
  handler.completed_filter (handler.Query q "completed")
  = Some (String.eqb s "true")
  /\ handler.ListTodos Atoi st o_count o_list q
     = list_response
         (service.ListTodos st o_count o_list (handler.page_param Atoi q)
            (handler.pageSize_param Atoi q) (Some (String.eqb s "true")))
  /\ handler.Status (handler.ListTodos Atoi st o_count o_list q)
     <> handler.StatusBadRequest
  /\ (s <> "true" ->
      handler.ListTodos Atoi st o_count o_list q
      = list_response
          (service.ListTodos st o_count o_list (handler.page_param Atoi q)
             (handler.pageSize_param Atoi q) (Some false))
      /\ forall todos total,
          handler.body (handler.ListTodos Atoi st o_count o_list q)
          = handler.ListBody todos total ->
          Forall (fun t => Completed t = false) todos)
  /\ handler.completed_filter "True" = Some false
  /\ handler.completed_filter "1" = Some false
  /\ handler.completed_filter "banana" = Some false
  /\ handler.completed_filter "true" = Some true.
Proof.
  intros Hq Hs.
  assert (Hfilter : handler.completed_filter (handler.Query q "completed")
                    = Some (String.eqb s "true")).
  { unfold handler.Query, handler.completed_filter. rewrite Hq.
    destruct (String.eqb_spec s EmptyString) as [E|_]; [contradiction|].
    reflexivity. }
  assert (Hresp : handler.ListTodos Atoi st o_count o_list q
     = list_response
         (service.ListTodos st o_count o_list (handler.page_param Atoi q)
            (handler.pageSize_param Atoi q) (Some (String.eqb s "true")))).
  { unfold handler.ListTodos. rewrite Hfilter. unfold list_response.
    destruct (service.ListTodos _ _ _ _ _ _) as [[todos total]|err];
      reflexivity. }
  split; [exact Hfilter|]. split; [exact Hresp|]. split.
  - rewrite Hresp. unfold list_response.
    destruct (service.ListTodos _ _ _ _ _ _) as [[todos total]|err];
      cbn; discriminate.
  - split; [|repeat split].
    intros Hne. destruct (String.eqb_spec s "true") as [E|_]; [contradiction|].
    split; [exact Hresp|].
    intros todos total. rewrite Hresp. unfold list_response, service.ListTodos.
    destruct (repository.List _ _ _ _ _ _) as [[todos' total']|err] eqn:E;
      cbn; [|discriminate].
    intros H. injection H as <- <-. eapply Forall_not_completed; exact E.
Qed.

Lemma ListTodos_completed_filter_witness :
  handler.ListTodos decimal_Atoi sample_store Executes pool.RowsExecute
    [("page", "1"); ("completed", "banana")]
  = list_response
      (service.ListTodos sample_store Executes pool.RowsExecute 1 10
         (Some false)).
Proof.
  destruct (@ListTodos_completed_filter decimal_Atoi sample_store Executes
              pool.RowsExecute [("page", "1"); ("completed", "banana")]
              "banana" eq_refl ltac:(discriminate))
    as (_ & _ & _ & Hother & _).
  destruct (Hother ltac:(discriminate)) as (Hresp & _).
  exact Hresp.
Defined.

(** ** The text and the arguments of the update statement *)

Ltac by_evaluation := vm_compute; reflexivity.

Ltac each_position i :=
  destruct i as [|[|[|i]]]; intros c a H; cbn in H;
  rewrite ?nth_error_nil in H; try discriminate H;
  injection H as <- <-; split; by_evaluation.

(** C7: for a request with [k >= 1] supplied fields, the statement assigns
    exactly the columns of the supplied fields, in the order title,
    description, completed; their placeholders are [$1 .. $k] in that order
    and the id is [$(k+1)]; the argument list is the supplied values in the
    same order followed by the id, of length [k + 1], so that every
    placeholder names the argument of its own field.  The store reads the
    text back to exactly these assignments. *)
Theorem Update_query_binds_positionally (req : UpdateTodoRequest) (id : Z) :
  let fields := supplied req in
  let k := List.length fields in
  let b := repository.build req in
  let sets := combine (map fst fields) (positions 1 k) in
  (1 <= k)%nat ->
  repository.updates b = map assignment_text sets
  /\ repository.update_query b
     = ("UPDATE todos SET "
          ++ (repository.joinStrings (map assignment_text sets) ", "
                ++ " WHERE id = $" ++ itoa (Z.of_nat k + 1)
                ++ returning_clause))%string
  /\ parse_update (repository.update_query b)
     = Some {| assignments := sets; where_id := Z.of_nat k + 1 |}
  /\ map fst sets = map fst fields
  /\ map snd sets = positions 1 k
  /\ repository.update_args b id = map snd fields ++ [ArgInt id]
  /\ List.length (repository.update_args b id) = S k
  /\ (forall i c a,
         nth_error fields i = Some (c, a) ->
         nth_error sets i = Some (c, Z.of_nat i + 1)
         /\ bind_param (repository.update_args b id) (Z.of_nat i + 1) = Some a)
  /\ bind_param (repository.update_args b id) (Z.of_nat k + 1)
     = Some (ArgInt id)
  /\ param_count {| assignments := sets; where_id := Z.of_nat k + 1 |}
     = Z.of_nat (List.length (repository.update_args b id)).
Proof.
  destruct req as [[title|] [description|] [completed|]];
    cbn -[parse_update itoa bind_param Z.add]; intros Hk;
    try (exfalso; lia);
    (split; [by_evaluation|]); (split; [by_evaluation|]);
    (split; [by_evaluation|]); (split; [by_evaluation|]);
    (split; [by_evaluation|]); (split; [by_evaluation|]);
    (split; [by_evaluation|]);
    (split; [intros i; each_position i|]);
    (split; by_evaluation).
Qed.

Lemma Update_query_binds_positionally_witness :
  repository.update_query
    (repository.build (mkUpdate (Some "X") None (Some true)))
  = "UPDATE todos SET title = $1, completed = $2 WHERE id = $3 RETURNING id, title, description, completed, created_at, updated_at"
  /\ repository.update_args
       (repository.build (mkUpdate (Some "X") None (Some true))) 7
     = [ArgString "X"; ArgBool true; ArgInt 7].
Proof.
  destruct (@Update_query_binds_positionally
              (mkUpdate (Some "X") None (Some true)) 7 ltac:(cbn; lia))
    as (_ & Htext & _ & _ & _ & Hargs & _).
  split; [rewrite Htext; reflexivity | rewrite Hargs; reflexivity].
Defined.

(** [joinStrings] on the cases of its test. *)
Example joinStrings_test :
  repository.joinStrings [] ", " = EmptyString
  /\ repository.joinStrings ["foo"] ", " = "foo"
  /\ repository.joinStrings ["foo"; "bar"; "baz"] ", " = "foo, bar, baz"
  /\ repository.joinStrings ["a"; "b"; "c"] " " = "a b c".
Proof. repeat split. Qed.

(** ** Reading, updating and deleting one record *)

Lemma lookup_none (st : Store) (id : Z) :
  lookup st id = None <-> select_by_id st id = [].
Proof.
  unfold lookup. destruct (select_by_id st id); cbn; split; congruence.
Qed.

Lemma lookup_some (st : Store) (id : Z) (t : Todo) :
  lookup st id = Some t -> exists rest, select_by_id st id = t :: rest.
Proof.
  unfold lookup. destruct (select_by_id st id) as [|x rest]; cbn;
    [discriminate|].
  intros H. injection H as ->. now exists rest.
Qed.

Lemma lookup_ID (st : Store) (id : Z) (t : Todo) :
  lookup st id = Some t -> ID t = id /\ In t (rows st).
Proof.
  intros H. destruct (lookup_some _ _ _ H) as (rest & E).
  assert (Hin : In t (select_by_id st id)) by (rewrite E; now left).
  unfold select_by_id in Hin. apply filter_In in Hin.
  destruct Hin as (Hin & Hid). split; [lia | exact Hin].
Qed.

Lemma GetByID_executes (st : Store) (id : Z) :
  repository.GetByID st Executes id
  = match lookup st id with
    | Some todo => Ok todo
    | None => Err ErrNotFound
    end.
Proof.
  unfold repository.GetByID, pool.QueryRow_select, pool.Scan, lookup.
  destruct (select_by_id st id); reflexivity.
Qed.

Lemma GetByID_aborts (st : Store) (f : DriverFault) (id : Z) :
  repository.GetByID st (Aborts f) id
  = Err (Errorf "failed to get todo: " (Driver f)).
Proof. destruct f; reflexivity. Qed.

Lemma filter_all (A : Type) (p : A -> bool) (l : list A) :
  filter (fun x => negb (p x)) l = l <-> filter p l = [].
Proof.
  induction l as [|x l IH]; cbn; [tauto|].
  destruct (p x); cbn.
  - split; [|discriminate]. intros H.
    pose proof (filter_length_le (fun x => negb (p x)) l) as Hle.
    rewrite H in Hle. cbn in Hle. lia.
  - rewrite <- IH. split; [congruence|]. intros ->. reflexivity.
Qed.

Lemma delete_absent (st : Store) (id : Z) :
  lookup st id = None -> delete_by_id st id = (st, 0).
Proof.
  intros H. apply lookup_none in H. unfold delete_by_id. rewrite H.
  unfold select_by_id in H. apply filter_all in H. rewrite H.
  destruct st; reflexivity.
Qed.

(** C3: for an id that no record has, with the store executing the
    statement, [GetByID], [Update] with any request and [Delete] each fail
    with [ErrNotFound]; whatever the outcome of its store calls, [Update]
    fails there without changing the store, since it reads first and never
    reaches its write; [Delete] leaves the store unchanged as well. *)
Theorem absent_id_fails_with_NotFound (st : Store) (id : Z) :
  lookup st id = None ->
  repository.GetByID st Executes id = Err ErrNotFound
  /\ (forall o_update now req,
         repository.Update st Executes o_update now id req
         = (st, Err ErrNotFound))
  /\ (forall o_get o_update now req,
         exists err,
           repository.Update st o_get o_update now id req = (st, Err err))
  /\ repository.Delete st Executes id = (st, Some ErrNotFound).
Proof.
  intros H.
  assert (Hget : repository.GetByID st Executes id = Err ErrNotFound)
    by (rewrite GetByID_executes, H; reflexivity).
  split; [exact Hget|]. split; [|split].
  - intros o_update now req. unfold repository.Update. now rewrite Hget.
  - intros [|f] o_update now req; unfold repository.Update.
    + rewrite Hget. eauto.
    + rewrite GetByID_aborts. eauto.
  - unfold repository.Delete, pool.Exec_delete.
    rewrite (delete_absent _ _ H). reflexivity.
Qed.

Lemma absent_id_fails_with_NotFound_witness :
  repository.GetByID sample_store Executes 3 = Err ErrNotFound
  /\ repository.Delete sample_store Executes 3
     = (sample_store, Some ErrNotFound).
Proof.
  destruct (@absent_id_fails_with_NotFound sample_store 3 eq_refl)
    as (Hget & _ & _ & Hdelete).
  split; [exact Hget | exact Hdelete].
Defined.

(** C2: for an existing id, [Update] with no field supplied returns the
    existing record and the store it was given: no statement is sent after
    the read (the outcome of the write call is irrelevant), so every field
    of the stored record, [updated_at] included, is what it was. *)
Theorem Update_without_fields_changes_nothing (st : Store)
    (o_update : StoreOutcome) (now : Timestamp) (id : Z) (existing : Todo) :
  lookup st id = Some existing ->
  repository.Update st Executes o_update now id (mkUpdate None None None)
  = (st, Ok existing)
  /\ lookup (fst (repository.Update st Executes o_update now id
                    (mkUpdate None None None))) id = Some existing
  /\ rows (fst (repository.Update st Executes o_update now id
                  (mkUpdate None None None))) = rows st.
Proof.
  intros H.
  assert (E : repository.Update st Executes o_update now id
                (mkUpdate None None None) = (st, Ok existing)).
  { unfold repository.Update. rewrite GetByID_executes, H. reflexivity. }
  rewrite E. cbn. auto.
Qed.

Lemma Update_without_fields_changes_nothing_witness :
  repository.Update sample_store Executes (Aborts ConnectionLost) 999 2
    (mkUpdate None None None)
  = (sample_store,
     Ok {| ID := 2; Title := "Pay rent"; Description := "before Friday";
           Completed := true; CreatedAt := 200; UpdatedAt := 250 |}).
Proof.
  exact (proj1 (@Update_without_fields_changes_nothing sample_store
                  (Aborts ConnectionLost) 999 2 _ eq_refl)).
Defined.

(** The supplied fields written into a row, before the trigger runs. *)
Lemma apply_assignments_supplied (req : UpdateTodoRequest) (id : Z) :
  supplied req <> [] ->
  exists stmt,
    parse_update (repository.update_query (repository.build req)) = Some stmt
    /\ param_count stmt
       = Z.of_nat (List.length
                     (repository.update_args (repository.build req) id))
    /\ bind_param (repository.update_args (repository.build req) id)
         (where_id stmt) = Some (ArgInt id)
    /\ forall now r,
        option_map (update_updated_at_column now)
          (apply_assignments (assignments stmt)
             (repository.update_args (repository.build req) id) r)
        = Some (updated_record req now r).
Proof.
  destruct req as [[title|] [description|] [completed|]];
    intros Hk; try (exfalso; apply Hk; reflexivity);
    (eexists; split; [by_evaluation|]);
    (split; [by_evaluation|]); (split; [by_evaluation|]);
    intros now [i t d c ca ua]; reflexivity.
Qed.

Lemma update_rows_map (l : list (Column * Z)) (args : list Arg)
    (now : Timestamp) (id : Z) (f : Todo -> Todo) (rs : list Todo) :
  (forall r, option_map (update_updated_at_column now)
               (apply_assignments l args r) = Some (f r)) ->
  update_rows l args now id rs
  = Some (map (fun r => if ID r =? id then f r else r) rs,
          map f (filter (fun r => ID r =? id) rs)).
Proof.
  intros Hf. induction rs as [|r rs IH]; cbn; [reflexivity|].
  rewrite IH. specialize (Hf r).
  destruct (ID r =? id); [|reflexivity].
  destruct (apply_assignments l args r); cbn in Hf; [|discriminate].
  injection Hf as Hf. cbn. now rewrite Hf.
Qed.

Lemma filter_map_same_key (f : Todo -> Todo) (id j : Z) (rs : list Todo) :
  (forall r, ID (f r) = ID r) ->
  filter (fun r => ID r =? j)
    (map (fun r => if ID r =? id then f r else r) rs)
  = map (fun r => if ID r =? id then f r else r)
      (filter (fun r => ID r =? j) rs).
Proof.
  intros Hid. induction rs as [|r rs IH]; cbn; [reflexivity|].
  assert (E : ID (if ID r =? id then f r else r) = ID r)
    by (destruct (ID r =? id); auto).
  rewrite E. destruct (ID r =? j); cbn; now rewrite IH.
Qed.

Lemma map_other_key (f : Todo -> Todo) (id j : Z) (rs : list Todo) :
  j <> id ->
  map (fun r => if ID r =? id then f r else r)
    (filter (fun r => ID r =? j) rs)
  = filter (fun r => ID r =? j) rs.
Proof.
  intros Hj. induction rs as [|r rs IH]; cbn; [reflexivity|].
  destruct (Z.eqb_spec (ID r) j) as [E|E]; cbn; [|exact IH].
  destruct (Z.eqb_spec (ID r) id); [lia|]. now rewrite IH.
Qed.

(** The update statement of the repository, run by the store. *)
Lemma update_returning_supplied (st : Store) (now : Timestamp) (id : Z)
    (req : UpdateTodoRequest) :
  supplied req <> [] ->
  update_returning st now (repository.update_query (repository.build req))
    (repository.update_args (repository.build req) id)
  = Some ({| rows := map (fun r => if ID r =? id
                                   then updated_record req now r else r)
                       (rows st);
             todos_id_seq := todos_id_seq st |},
          map (updated_record req now) (select_by_id st id)).
Proof.
  intros Hk.
  destruct (@apply_assignments_supplied req id Hk)
    as (stmt & Hparse & Hcount & Hwhere & Hrow).
  unfold update_returning. rewrite Hparse, Hcount, Z.eqb_refl, Hwhere. cbn.
  rewrite (update_rows_map _ _ _ id (updated_record req now) (rows st))
    by (intros r; apply Hrow).
  reflexivity.
Qed.

Lemma supplied_nonempty (req : UpdateTodoRequest) :
  update_Title req <> None \/ update_Description req <> None
  \/ update_Completed req <> None ->
  supplied req <> [].
Proof.
  destruct req as [[title|] [description|] [completed|]]; cbn;
    intros H; try discriminate.
  intuition congruence.
Qed.

Lemma build_has_updates (req : UpdateTodoRequest) :
  supplied req <> [] ->
  (List.length (repository.updates (repository.build req)) =? 0)%nat = false.
Proof.
  destruct req as [[title|] [description|] [completed|]];
    intros H; try reflexivity.
  exfalso. now apply H.
Qed.

(** C1: for an existing id and a request that supplies at least one of
    title, description and completed, with the store executing both
    statements, [Update] moves the store in one step to the store where the
    record has exactly the supplied fields replaced, the other fields and
    [created_at] kept, and [updated_at] set by the trigger to the time of
    the statement; it returns that record, all six fields, as the store now
    holds it.  No other record, and not the id sequence, is touched. *)
Theorem Update_applies_supplied_fields (st : Store) (now : Timestamp) (id : Z)
    (req : UpdateTodoRequest) (existing : Todo) :
  lookup st id = Some existing ->
  update_Title req <> None \/ update_Description req <> None
  \/ update_Completed req <> None ->
  exists st' todo,
    repository.Update st Executes Executes now id req = (st', Ok todo)
    /\ lookup st' id = Some todo
    /\ ID todo = id
    /\ Title todo = match update_Title req with
                    | Some title => title
                    | None => Title existing
                    end
    /\ Description todo = match update_Description req with
                          | Some description => description
                          | None => Description existing
                          end
    /\ Completed todo = match update_Completed req with
                        | Some completed => completed
                        | None => Completed existing
                        end
    /\ CreatedAt todo = CreatedAt existing
    /\ UpdatedAt todo = now
    /\ (forall j, j <> id -> select_by_id st' j = select_by_id st j)
    /\ map ID (rows st') = map ID (rows st)
    /\ todos_id_seq st' = todos_id_seq st.
Proof.
  intros Hex Hsome. apply supplied_nonempty in Hsome.
  destruct (lookup_some _ _ _ Hex) as (rest & Hsel).
  destruct (lookup_ID _ _ _ Hex) as (Hid & _).
  exists {| rows := map (fun r => if ID r =? id
                                  then updated_record req now r else r)
                      (rows st);
            todos_id_seq := todos_id_seq st |},
         (updated_record req now existing).
  split.
  { unfold repository.Update. rewrite GetByID_executes, Hex.
    rewrite (build_has_updates req Hsome).
    unfold pool.QueryRow_update.
    rewrite (update_returning_supplied st now id req Hsome), Hsel.
    reflexivity. }
  split.
  { unfold lookup, select_by_id. cbn [rows].
    rewrite filter_map_same_key by reflexivity.
    fold (select_by_id st id). rewrite Hsel. cbn.
    rewrite Hid, Z.eqb_refl. reflexivity. }
  repeat (split; [first [exact Hid | reflexivity]|]).
  split; [|split; [|reflexivity]].
  - intros j Hj. unfold select_by_id. cbn [rows].
    rewrite filter_map_same_key by reflexivity. now apply map_other_key.
  - cbn [rows]. rewrite map_map. apply map_ext.
    intros r. destruct (ID r =? id); reflexivity.
Qed.

Lemma Update_applies_supplied_fields_witness :
  exists st',
    repository.Update sample_store Executes Executes 999 1
      (mkUpdate None None (Some true))
    = (st', Ok {| ID := 1; Title := "Buy milk"; Description := EmptyString;
                  Completed := true; CreatedAt := 100; UpdatedAt := 999 |})
    /\ lookup st' 2 = lookup sample_store 2.
Proof.
  destruct (@Update_applies_supplied_fields sample_store 999 1
              (mkUpdate None None (Some true)) _ eq_refl)
    as (st' & todo & Hupdate & _ & Hid & Ht & Hd & Hc & Hcr & Hup & Hothers & _).
  { right. right. discriminate. }
  exists st'. split.
  - rewrite Hupdate. do 2 f_equal.
    destruct todo as [i t d c cr up]; cbn in *. now subst.
  - unfold lookup. rewrite Hothers by lia. reflexivity.
Defined.

(** ** Creating records: ids drawn from the sequence *)

Lemma set_column_ID (c : Column) (a : Arg) (t t' : Todo) :
  set_column c a t = Some t' -> ID t' = ID t.
Proof.
  destruct c, a; cbn; intros H; try discriminate H;
    injection H as <-; reflexivity.
Qed.

Lemma apply_assignments_ID (l : list (Column * Z)) (args : list Arg)
    (t t' : Todo) :
  apply_assignments l args t = Some t' -> ID t' = ID t.
Proof.
  revert t. induction l as [|[c n] l IH]; cbn; intros t H.
  - now injection H as <-.
  - destruct (bind_param args n) as [a|]; [|discriminate].
    destruct (set_column c a t) as [t1|] eqn:E; [|discriminate].
    rewrite (IH _ H). eapply set_column_ID; exact E.
Qed.

Lemma update_rows_ID (l : list (Column * Z)) (args : list Arg)
    (now : Timestamp) (id : Z) (rs rs' returned : list Todo) :
  update_rows l args now id rs = Some (rs', returned) ->
  map ID rs' = map ID rs.
Proof.
  revert rs' returned. induction rs as [|r rs IH]; cbn; intros rs' returned H.
  - now injection H as <- <-.
  - destruct (update_rows l args now id rs) as [[rest' ret]|]; [|discriminate].
    specialize (IH _ _ eq_refl).
    destruct (ID r =? id).
    + destruct (apply_assignments l args r) as [r'|] eqn:E; [|discriminate].
      injection H as <- <-. cbn. rewrite IH.
      now rewrite (apply_assignments_ID _ _ _ _ E).
    + injection H as <- <-. cbn. now rewrite IH.
Qed.

Lemma update_returning_ID (st st' : Store) (now : Timestamp) (query : string)
    (args : list Arg) (returned : list Todo) :
  update_returning st now query args = Some (st', returned) ->
  map ID (rows st') = map ID (rows st)
  /\ todos_id_seq st' = todos_id_seq st.
Proof.
  unfold update_returning.
  destruct (parse_update query) as [stmt|]; [|discriminate].
  destruct (negb _); [discriminate|].
  destruct (bind_param args (where_id stmt)) as [[s|b|id]|]; try discriminate.
  destruct (update_rows _ _ _ _ _) as [[rows' ret]|] eqn:E; [|discriminate].
  intros H. injection H as <- <-. cbn. split; [|reflexivity].
  eapply update_rows_ID; exact E.
Qed.

Lemma Update_keeps_ids (st : Store) (o_get o_update : StoreOutcome)
    (now : Timestamp) (id : Z) (req : UpdateTodoRequest) :
  map ID (rows (fst (repository.Update st o_get o_update now id req)))
  = map ID (rows st)
  /\ todos_id_seq (fst (repository.Update st o_get o_update now id req))
     = todos_id_seq st.
Proof.
  unfold repository.Update.
  destruct (repository.GetByID st o_get id) as [existing|err]; [|now cbn].
  destruct (_ =? _)%nat; [now cbn|].
  unfold pool.QueryRow_update. destruct o_update as [|f]; [|now cbn].
  destruct (update_returning _ _ _ _) as [[st' returned]|] eqn:E; [|now cbn].
  apply update_returning_ID in E.
  destruct (pool.Scan returned); exact E.
Qed.

Lemma ids_from_sequence_map (st st' : Store) :
  map ID (rows st') = map ID (rows st) ->
  todos_id_seq st' = todos_id_seq st ->
  ids_from_sequence st -> ids_from_sequence st'.
Proof.
  unfold ids_from_sequence. intros Hrows Hseq H. rewrite Hseq.
  apply Forall_map with (f := ID) (P := fun i => i <= todos_id_seq st).
  rewrite Hrows. now apply Forall_map.
Qed.

Lemma Delete_keeps_sequence (st : Store) (o : StoreOutcome) (id : Z) :
  ids_from_sequence st ->
  ids_from_sequence (fst (repository.Delete st o id))
  /\ todos_id_seq (fst (repository.Delete st o id)) = todos_id_seq st.
Proof.
  intros H. unfold repository.Delete, pool.Exec_delete.
  destruct o as [|f]; [|now cbn]. unfold delete_by_id.
  destruct (_ =? 0); cbn; (split; [|reflexivity]);
    unfold ids_from_sequence in *; cbn;
    apply Forall_forall; intros t Ht; apply filter_In in Ht;
    rewrite Forall_forall in H; now apply H.
Qed.

Lemma fresh_id_not_selected (st : Store) (id : Z) :
  ids_from_sequence st -> todos_id_seq st < id -> select_by_id st id = [].
Proof.
  unfold ids_from_sequence, select_by_id. intros H Hid.
  induction H as [|t rs Ht _ IH]; cbn; [reflexivity|].
  destruct (Z.eqb_spec (ID t) id); [lia | exact IH].
Qed.

Lemma Create_executes (st : Store) (now : Timestamp) (req : CreateTodoRequest) :
  repository.Create st Executes now req
  = ({| rows := rows st
                ++ [ {| ID := todos_id_seq st + 1;
                        Title := create_Title req;
                        Description := create_Description req;
                        Completed := create_Completed req;
                        CreatedAt := now; UpdatedAt := now |} ];
        todos_id_seq := todos_id_seq st + 1 |},
     Ok {| ID := todos_id_seq st + 1;
           Title := create_Title req;
           Description := create_Description req;
           Completed := create_Completed req;
           CreatedAt := now; UpdatedAt := now |}).
Proof. reflexivity. Qed.

Lemma Create_aborts (st : Store) (f : DriverFault) (now : Timestamp)
    (req : CreateTodoRequest) :
  repository.Create st (Aborts f) now req
  = (st, Err (Errorf "failed to create todo: " (Driver f))).
Proof. reflexivity. Qed.

(** One call keeps the table within the sequence, never moves the sequence
    back, and creates at most one record, whose id lies above the old value
    of the sequence. *)
Lemma step_invariant (st : Store) (c : Call) :
  ids_from_sequence st ->
  ids_from_sequence (fst (step st c))
  /\ todos_id_seq st <= todos_id_seq (fst (step st c))
  /\ Forall (fun t => todos_id_seq st < ID t <= todos_id_seq (fst (step st c))
                      /\ CreatedAt t = UpdatedAt t)
       (snd (step st c))
  /\ NoDup (map ID (snd (step st c))).
Proof.
  intros H. destruct c as [o now req|o_get o_update now id req|o id]; cbn [step].
  - destruct o as [|f].
    + rewrite Create_executes. cbn. split; [|split; [lia|split]].
      * unfold ids_from_sequence in *. cbn. apply Forall_app. split.
        -- eapply Forall_impl; [|exact H]. cbn. intros; lia.
        -- repeat constructor. cbn. lia.
      * repeat constructor; cbn; lia.
      * repeat constructor. intros [].
    + rewrite Create_aborts. cbn.
      repeat split; [exact H | lia | constructor | constructor].
  - destruct (Update_keeps_ids st o_get o_update now id req) as (Hrows & Hseq).
    cbn. rewrite Hseq.
    repeat split; [|lia|constructor|constructor].
    eapply ids_from_sequence_map; eauto.
  - destruct (Delete_keeps_sequence st o id H) as (Hinv & Hseq).
    cbn. rewrite Hseq.
    repeat split; [exact Hinv|lia|constructor|constructor].
Qed.

Lemma run_invariant (calls : list Call) (st : Store) :
  ids_from_sequence st ->
  ids_from_sequence (fst (run st calls))
  /\ todos_id_seq st <= todos_id_seq (fst (run st calls))
  /\ Forall (fun t => todos_id_seq st < ID t <= todos_id_seq (fst (run st calls))
                      /\ CreatedAt t = UpdatedAt t)
       (snd (run st calls))
  /\ NoDup (map ID (snd (run st calls))).
Proof.
  revert st. induction calls as [|c calls IH]; intros st H; cbn [run].
  - cbn. repeat split; [exact H | lia | constructor | constructor].
  - destruct (step_invariant st c H) as (H1 & Hle1 & Hc1 & Hnd1).
    destruct (step st c) as [st1 created1]. cbn [fst snd] in *.
    destruct (IH st1 H1) as (H2 & Hle2 & Hc2 & Hnd2).
    destruct (run st1 calls) as [st2 created2]. cbn [fst snd] in *.
    split; [exact H2|]. split; [lia|]. split.
    + apply Forall_app. split.
      * eapply Forall_impl; [|exact Hc1]. cbn. intros t Ht. split; [lia|tauto].
      * eapply Forall_impl; [|exact Hc2]. cbn. intros t Ht. split; [lia|tauto].
    + rewrite map_app. apply NoDup_app; [exact Hnd1 | exact Hnd2|].
      intros i Hi1 Hi2.
      apply in_map_iff in Hi1. destruct Hi1 as (t1 & <- & Ht1).
      apply in_map_iff in Hi2. destruct Hi2 as (t2 & E & Ht2).
      rewrite Forall_forall in Hc1, Hc2.
      specialize (Hc1 _ Ht1). specialize (Hc2 _ Ht2). lia.
Qed.

(** C8: after any sequence of repository calls on the empty table, with
    any outcomes, the records ever created have pairwise distinct ids and
    each was created with [created_at = updated_at]; and a further [Create]
    that the store executes returns the full record with the fields of the
    request, both timestamps equal to the time of the insert, and the next
    value of the sequence as id, an id that no record created so far and no
    row of the table has; the returned record is the row the store now
    holds under that id. *)
Theorem Create_returns_record_with_fresh_id (calls : list Call)
    (now : Timestamp) (req : CreateTodoRequest) :
  let st := fst (run empty_store calls) in
  let created := snd (run empty_store calls) in
  NoDup (map ID created)
  /\ Forall (fun t => CreatedAt t = UpdatedAt t) created
  /\ exists st' todo,
      repository.Create st Executes now req = (st', Ok todo)
      /\ Title todo = create_Title req
      /\ Description todo = create_Description req
      /\ Completed todo = create_Completed req
      /\ CreatedAt todo = now
      /\ UpdatedAt todo = now
      /\ CreatedAt todo = UpdatedAt todo
      /\ ID todo = todos_id_seq st + 1
      /\ ~ In (ID todo) (map ID created)
      /\ ~ In (ID todo) (map ID (rows st))
      /\ rows st' = rows st ++ [todo]
      /\ lookup st' (ID todo) = Some todo
      /\ snd (run empty_store (calls ++ [CallCreate Executes now req]))
         = created ++ [todo].
Proof.
  intros st created.
  assert (H0 : ids_from_sequence empty_store) by constructor.
  destruct (run_invariant calls empty_store H0) as (Hinv & _ & Hcreated & Hnd).
  fold st in Hinv, Hcreated. fold created in Hcreated, Hnd.
  split; [exact Hnd|]. split.
  { eapply Forall_impl; [|exact Hcreated]. cbn. tauto. }
  rewrite Create_executes. do 2 eexists. split; [reflexivity|].
  cbn [Title Description Completed CreatedAt UpdatedAt ID rows].
  repeat (split; [reflexivity|]).
  split; [|split; [|split; [reflexivity|split]]].
  - intros Hin. apply in_map_iff in Hin. destruct Hin as (t & E & Ht).
    rewrite Forall_forall in Hcreated. specialize (Hcreated _ Ht). lia.
  - intros Hin. apply in_map_iff in Hin. destruct Hin as (t & E & Ht).
    unfold ids_from_sequence in Hinv. rewrite Forall_forall in Hinv.
    specialize (Hinv _ Ht). lia.
  - unfold lookup, select_by_id. cbn [rows]. rewrite filter_app.
    fold (select_by_id st (todos_id_seq st + 1)).
    rewrite fresh_id_not_selected by (auto; lia).
    cbn. now rewrite Z.eqb_refl.
  - clear. subst st created. generalize empty_store.
    induction calls as [|c calls IH]; intros s; cbn [run app].
    + cbn [step]. rewrite Create_executes. reflexivity.
    + destruct (step s c) as [s1 created1]. specialize (IH s1).
      destruct (run s1 (calls ++ _)) as [s2 created2].
      destruct (run s1 calls) as [s3 created3]. cbn [fst snd] in *.
      rewrite IH. now rewrite app_assoc.
Qed.

Lemma Create_returns_record_with_fresh_id_witness :
  exists st',
    repository.Create
      (fst (run empty_store
              [CallCreate Executes 10 (mkCreate "a" EmptyString false);
               CallDelete Executes 1]))
      Executes 20 (mkCreate "Buy milk" EmptyString false)
    = (st', Ok {| ID := 2; Title := "Buy milk"; Description := EmptyString;
                  Completed := false; CreatedAt := 20; UpdatedAt := 20 |}).
Proof.
  destruct (Create_returns_record_with_fresh_id
              [CallCreate Executes 10 (mkCreate "a" EmptyString false);
               CallDelete Executes 1]
              20 (mkCreate "Buy milk" EmptyString false))
    as (_ & _ & st' & todo & Hcreate & Ht & Hd & Hc & Hcr & Hup & _ & Hid & _).
  exists st'. rewrite Hcreate. do 2 f_equal.
  destruct todo as [i t d c cr up]; cbn in *. now subst.
Defined.

(** ** Aborted store calls *)




(** The sentinel and a wrapped cancellation, as [Error()] prints them. *)
Example error_texts :
  error_text ErrNotFound = "todo not found"
  /\ error_text (Errorf "failed to get todo: " (Driver ContextCanceled))
     = "failed to get todo: context canceled".
Proof. split; reflexivity. Qed.


(** * Further properties of the repository *)

(** ** Deleting *)

Lemma select_after_delete (st : Store) (id j : Z) :
  select_by_id (fst (delete_by_id st id)) j
  = if j =? id then [] else select_by_id st j.
Proof.
  unfold delete_by_id, select_by_id. cbn [fst rows].
  induction (rows st) as [|r rs IH]; cbn; [now destruct (j =? id)|].
  destruct (Z.eqb_spec (ID r) id) as [E|E]; cbn.
  - rewrite IH. destruct (Z.eqb_spec j id) as [F|F]; [reflexivity|].
    destruct (Z.eqb_spec (ID r) j); [lia | reflexivity].
  - destruct (Z.eqb_spec (ID r) j) as [F|F]; rewrite IH.
    + destruct (Z.eqb_spec j id); [lia | reflexivity].
    + reflexivity.
Qed.

Lemma Delete_executes (st : Store) (id : Z) :
  repository.Delete st Executes id
  = (fst (delete_by_id st id),
     if Z.of_nat (List.length (select_by_id st id)) =? 0
     then Some ErrNotFound else None).
Proof.
  unfold repository.Delete, pool.Exec_delete, delete_by_id. cbn.
  now destruct (_ =? 0).
Qed.

(** X1: deleting an existing record succeeds with the nil error and
    removes exactly the rows of that id: the id is no longer found, every
    other id reads as before, and the id sequence is not moved. *)
Theorem Delete_removes_the_record (st : Store) (id : Z) (existing : Todo) :
  lookup st id = Some existing ->
  exists st',
    repository.Delete st Executes id = (st', None)
    /\ repository.GetByID st' Executes id = Err ErrNotFound
    /\ (forall j, j <> id -> select_by_id st' j = select_by_id st j)
    /\ (forall t, In t (rows st') <-> In t (rows st) /\ ID t <> id)
    /\ todos_id_seq st' = todos_id_seq st.
Proof.
  intros Hex. destruct (lookup_some _ _ _ Hex) as (rest & Hsel).
  exists (fst (delete_by_id st id)). split; [|split; [|split; [|split]]].
  - rewrite Delete_executes, Hsel. reflexivity.
  - rewrite GetByID_executes. unfold lookup.
    now rewrite select_after_delete, Z.eqb_refl.
  - intros j Hj. rewrite select_after_delete.
    destruct (Z.eqb_spec j id); [contradiction | reflexivity].
  - intros t. cbn. rewrite filter_In.
    destruct (Z.eqb_spec (ID t) id); cbn; intuition congruence.
  - reflexivity.
Qed.

Lemma Delete_removes_the_record_witness :
  exists st',
    repository.Delete sample_store Executes 2 = (st', None)
    /\ repository.GetByID st' Executes 2 = Err ErrNotFound
    /\ select_by_id st' 4 = select_by_id sample_store 4.
Proof.
  destruct (Delete_removes_the_record sample_store 2 _ eq_refl)
    as (st' & Hdel & Hget & Hothers & _).
  exists st'. split; [exact Hdel|]. split; [exact Hget|].
  apply Hothers. lia.
Defined.


(** ** What a not-found answer means *)

Lemma Scan_error (answer : list Todo) (err : error) :
  pool.Scan answer = Err err -> err = pgx_ErrNoRows.
Proof. destruct answer; cbn; congruence. Qed.

(** X3: the repository answers not-found only for an id no row has.  An
    error of [GetByID], [Update] or [Delete] in which [errors.Is] finds
    [ErrNotFound] implies that the id is absent, for every outcome of the
    store calls; for [GetByID] it also implies that the store executed the
    read. *)
Theorem NotFound_means_absent (st : Store) (o o' : StoreOutcome)
    (now : Timestamp) (id : Z) (req : UpdateTodoRequest) (err : error) :
  errors_Is err ErrNotFound = true ->
  (repository.GetByID st o id = Err err ->
   lookup st id = None /\ o = Executes)
  /\ (snd (repository.Update st o o' now id req) = Err err ->
      lookup st id = None)
  /\ (snd (repository.Delete st o id) = Some err -> lookup st id = None).
Proof.
  intros His.
  assert (Hget : repository.GetByID st o id = Err err ->
                 lookup st id = None /\ o = Executes).
  { destruct o as [|f].
    - rewrite GetByID_executes. destruct (lookup st id); [discriminate|auto].
    - rewrite GetByID_aborts. intros H. injection H as <-.
      destruct f; discriminate His. }
  split; [exact Hget|]. split.
  - unfold repository.Update.
    destruct (repository.GetByID st o id) as [existing|e] eqn:E.
    + destruct (_ =? _)%nat; [discriminate|].
      unfold pool.QueryRow_update. destruct o' as [|f].
      * destruct (update_returning _ _ _ _) as [[st' returned]|]; cbn.
        -- destruct (pool.Scan returned) as [t|e] eqn:Es; cbn; [discriminate|].
           apply Scan_error in Es. subst e. intros H. injection H as <-.
           discriminate His.
        -- intros H. injection H as <-. discriminate His.
      * cbn. intros H. injection H as <-. destruct f; discriminate His.
    + cbn. intros H. injection H as ->. now apply Hget.
  - unfold repository.Delete, pool.Exec_delete. destruct o as [|f].
    + unfold delete_by_id.
      destruct (Z.eqb_spec (Z.of_nat (List.length (select_by_id st id))) 0)
        as [E|E]; cbn; [|discriminate].
      intros _. apply lookup_none.
      destruct (select_by_id st id); [reflexivity | cbn in E; lia].
    + cbn. intros H. injection H as <-. destruct f; discriminate His.
Qed.

Lemma NotFound_means_absent_witness :
  lookup sample_store 3 = None.
Proof.
  destruct (NotFound_means_absent sample_store Executes Executes 0 3
              (mkUpdate None None None) ErrNotFound eq_refl) as (Hget & _).
  exact (proj1 (Hget eq_refl)).
Defined.

(** ** Creating next to existing records *)

Lemma select_after_insert (st : Store) (now : Timestamp)
    (title description : string) (completed : bool) (j : Z) :
  select_by_id (fst (insert_returning st now title description completed)) j
  = select_by_id st j
    ++ (if todos_id_seq st + 1 =? j
        then [snd (insert_returning st now title description completed)]
        else []).
Proof.
  unfold insert_returning, select_by_id. cbn [fst snd rows].
  rewrite filter_app. reflexivity.
Qed.

Lemma lookup_below_sequence (st : Store) (j : Z) (existing : Todo) :
  ids_from_sequence st -> lookup st j = Some existing -> j <= todos_id_seq st.
Proof.
  intros Hinv H. destruct (lookup_ID _ _ _ H) as (Hid & Hin).
  unfold ids_from_sequence in Hinv. rewrite Forall_forall in Hinv.
  specialize (Hinv _ Hin). lia.
Qed.

(** X4: on a table whose ids were all drawn from the sequence, a [Create]
    that the store executes adds one record and disturbs none: the new
    record is read back under its id, every other id selects the rows it
    selected before, every record that could be read before is read
    unchanged, and the ids of the table are still within the sequence. *)
Theorem Create_keeps_existing_records (st : Store) (now : Timestamp)
    (req : CreateTodoRequest) :
  ids_from_sequence st ->
  exists st' todo,
    repository.Create st Executes now req = (st', Ok todo)
    /\ repository.GetByID st' Executes (ID todo) = Ok todo
    /\ (forall j, j <> ID todo -> select_by_id st' j = select_by_id st j)
    /\ (forall j existing,
           lookup st j = Some existing ->
           repository.GetByID st' Executes j = Ok existing)
    /\ ids_from_sequence st'.
Proof.
  intros Hinv. rewrite Create_executes. do 2 eexists.
  split; [reflexivity|]. cbn [ID].
  pose proof (select_after_insert st now (create_Title req)
                (create_Description req) (create_Completed req)) as Hsel.
  cbn [insert_returning fst snd] in Hsel.
  split; [|split; [|split]].
  - rewrite GetByID_executes. unfold lookup. rewrite Hsel.
    rewrite fresh_id_not_selected by (auto; lia).
    now rewrite Z.eqb_refl.
  - intros j Hj. rewrite Hsel.
    destruct (Z.eqb_spec (todos_id_seq st + 1) j); [lia|].
    apply app_nil_r.
  - intros j existing Hex. rewrite GetByID_executes. unfold lookup.
    rewrite Hsel.
    pose proof (lookup_below_sequence st j existing Hinv Hex) as Hle.
    destruct (lookup_some _ _ _ Hex) as (rest & ->). reflexivity.
  - unfold ids_from_sequence in *. cbn [rows todos_id_seq].
    apply Forall_app. split.
    + eapply Forall_impl; [|exact Hinv]. cbn. intros; lia.
    + repeat constructor. cbn. lia.
Qed.

Lemma sample_store_ids_from_sequence : ids_from_sequence sample_store.
Proof. repeat constructor; cbn; lia. Qed.

Lemma Create_keeps_existing_records_witness :
  exists st' todo,
    repository.Create sample_store Executes 400
      (mkCreate "Water plants" EmptyString false) = (st', Ok todo)
    /\ repository.GetByID st' Executes 2
       = repository.GetByID sample_store Executes 2.
Proof.
  destruct (Create_keeps_existing_records sample_store 400
              (mkCreate "Water plants" EmptyString false)
              sample_store_ids_from_sequence)
    as (st' & todo & Hcreate & _ & _ & Hold & _).
  exists st', todo. split; [exact Hcreate|].
  rewrite (Hold 2 _ eq_refl). reflexivity.
Defined.

(** ** The ids of a run *)

Lemma step_creates_at_most_one (st : Store) (c : Call) :
  (List.length (snd (step st c)) <= 1)%nat.
Proof.
  destruct c as [o now req|o_get o_update now id req|o id]; cbn [step];
    [|cbn; lia|cbn; lia].
  destruct (repository.Create st o now req) as [st' [todo|err]]; cbn; lia.
Qed.

Lemma run_ids_increase (calls : list Call) (st : Store) :
  ids_from_sequence st ->
  StronglySorted Z.lt (map ID (snd (run st calls))).
Proof.
  revert st. induction calls as [|c calls IH]; intros st H; cbn [run].
  - constructor.
  - destruct (step_invariant st c H) as (H1 & Hle1 & Hc1 & _).
    pose proof (step_creates_at_most_one st c) as Hlen.
    destruct (step st c) as [st1 created1]. cbn [fst snd] in *.
    specialize (IH st1 H1).
    destruct (run_invariant calls st1 H1) as (_ & _ & Hc2 & _).
    destruct (run st1 calls) as [st2 created2]. cbn [fst snd] in *.
    destruct created1 as [|t [|t' rest]]; [exact IH| |cbn in Hlen; lia].
    cbn. constructor; [exact IH|].
    inversion Hc1 as [|? ? (Ht & _) _]; subst.
    apply Forall_map. eapply Forall_impl; [|exact Hc2].
    cbn. intros t2 ((Hlt & _) & _). lia.
Qed.

(** X5: over any sequence of repository calls on the empty table, the
    ids of the records created are handed out in strictly increasing order,
    starting above zero and never beyond the sequence: an id, once issued,
    is not issued again, whether or not its record has been deleted since. *)
Theorem created_ids_increase (calls : list Call) :
  StronglySorted Z.lt (map ID (snd (run empty_store calls)))
  /\ Forall (fun t => 1 <= ID t <= todos_id_seq (fst (run empty_store calls)))
       (snd (run empty_store calls)).
Proof.
  assert (H0 : ids_from_sequence empty_store) by constructor.
  split; [now apply run_ids_increase|].
  destruct (run_invariant calls empty_store H0) as (_ & _ & Hc & _).
  eapply Forall_impl; [|exact Hc]. cbn. intros t ((Hlo & Hhi) & _). lia.
Qed.

(** ** The primary key *)

Lemma NoDup_map_filter (p : Todo -> bool) (l : list Todo) :
  NoDup (map ID l) -> NoDup (map ID (filter p l)).
Proof.
  induction l as [|r l IH]; cbn; intros H; [constructor|].
  inversion H as [|? ? Hnot Hrest]; subst.
  destruct (p r); cbn; [|auto].
  constructor; [|auto]. intros Hin. apply Hnot.
  apply in_map_iff in Hin. destruct Hin as (t & E & Ht).
  apply filter_In in Ht. apply in_map_iff. exists t. tauto.
Qed.

Lemma step_keeps_primary_key (st : Store) (c : Call) :
  ids_from_sequence st -> NoDup (map ID (rows st)) ->
  NoDup (map ID (rows (fst (step st c)))).
Proof.
  intros Hinv Hnd.
  destruct c as [o now req|o_get o_update now id req|o id]; cbn [step].
  - destruct o as [|f].
    + rewrite Create_executes. cbn. rewrite map_app. cbn.
      apply NoDup_app; [exact Hnd | repeat constructor; intros [] |].
      intros i Hi [<-|[]]. apply in_map_iff in Hi.
      destruct Hi as (t & E & Ht).
      unfold ids_from_sequence in Hinv. rewrite Forall_forall in Hinv.
      specialize (Hinv _ Ht). lia.
    + rewrite Create_aborts. exact Hnd.
  - cbn. now rewrite (proj1 (Update_keeps_ids st o_get o_update now id req)).
  - cbn. unfold repository.Delete, pool.Exec_delete.
    destruct o as [|f]; [|exact Hnd]. unfold delete_by_id.
    destruct (_ =? 0); cbn; now apply NoDup_map_filter.
Qed.

Lemma run_keeps_primary_key (calls : list Call) (st : Store) :
  ids_from_sequence st -> NoDup (map ID (rows st)) ->
  NoDup (map ID (rows (fst (run st calls)))).
Proof.
  revert st. induction calls as [|c calls IH]; intros st Hinv Hnd; cbn [run];
    [exact Hnd|].
  pose proof (step_keeps_primary_key st c Hinv Hnd) as Hnd1.
  destruct (step_invariant st c Hinv) as (Hinv1 & _).
  destruct (step st c) as [st1 created1]. cbn [fst snd] in *.
  specialize (IH st1 Hinv1 Hnd1).
  destruct (run st1 calls) as [st2 created2]. exact IH.
Qed.

Lemma select_at_most_one (rs : list Todo) (id : Z) :
  NoDup (map ID rs) ->
  (List.length (filter (fun t => (ID t =? id)%Z) rs) <= 1)%nat.
Proof.
  induction rs as [|r rs IH]; cbn; intros H; [lia|].
  inversion H as [|? ? Hnot Hrest]; subst. specialize (IH Hrest).
  destruct (Z.eqb_spec (ID r) id) as [E|E]; [|exact IH].
  cbn. destruct (filter _ rs) as [|t ts] eqn:F; [cbn; lia|].
  exfalso. apply Hnot. apply in_map_iff. exists t.
  assert (Hin : In t (filter (fun t => ID t =? id) rs))
    by (rewrite F; now left).
  apply filter_In in Hin. destruct Hin as (Hin & Hid). split; [lia | exact Hin].
Qed.

(** X6: after any sequence of repository calls on the empty table no two
    rows share an id, so a statement with [WHERE id = $n] selects at most
    one row: the record [GetByID] returns is the only one of its id, and
    [Delete] removes at most one row. *)
Theorem ids_are_a_primary_key (calls : list Call) (id : Z) :
  NoDup (map ID (rows (fst (run empty_store calls))))
  /\ (List.length (select_by_id (fst (run empty_store calls)) id) <= 1)%nat
  /\ snd (delete_by_id (fst (run empty_store calls)) id) <= 1.
Proof.
  assert (Hnd : NoDup (map ID (rows (fst (run empty_store calls))))).
  { apply run_keeps_primary_key; constructor. }
  pose proof (select_at_most_one _ id Hnd) as Hone.
  split; [exact Hnd|]. split; [exact Hone|].
  unfold delete_by_id. cbn [snd]. unfold select_by_id. lia.
Qed.

(** ** What an update leaves alone *)

Lemma set_column_CreatedAt (c : Column) (a : Arg) (t t' : Todo) :
  set_column c a t = Some t' -> CreatedAt t' = CreatedAt t.
Proof.
  destruct c, a; cbn; intros H; try discriminate H;
    injection H as <-; reflexivity.
Qed.

Lemma apply_assignments_CreatedAt (l : list (Column * Z)) (args : list Arg)
    (t t' : Todo) :
  apply_assignments l args t = Some t' -> CreatedAt t' = CreatedAt t.
Proof.
  revert t. induction l as [|[c n] l IH]; cbn; intros t H.
  - now injection H as <-.
  - destruct (bind_param args n) as [a|]; [|discriminate].
    destruct (set_column c a t) as [t1|] eqn:E; [|discriminate].
    rewrite (IH _ H). eapply set_column_CreatedAt; exact E.
Qed.

Lemma kept_by_update_refl (id : Z) (rs : list Todo) :
  Forall2 (kept_by_update id) rs rs.
Proof.
  induction rs; constructor; auto. repeat split; auto.
Qed.

Lemma updated_rows_kept (req : UpdateTodoRequest) (now : Timestamp) (id : Z)
    (rs : list Todo) :
  Forall2 (kept_by_update id) rs
    (map (fun r => if ID r =? id then updated_record req now r else r) rs).
Proof.
  induction rs as [|r rs IH]; cbn; constructor; [|exact IH].
  destruct (Z.eqb_spec (ID r) id) as [E|E].
  - split; [split; reflexivity | intros Hne; contradiction].
  - repeat split; auto.
Qed.

(** The store after an [Update], whatever the outcomes: the one before, or
    the one where the rows of the id carry the request. *)
Lemma Update_store (st : Store) (o_get o_update : StoreOutcome)
    (now : Timestamp) (id : Z) (req : UpdateTodoRequest) :
  fst (repository.Update st o_get o_update now id req) = st
  \/ fst (repository.Update st o_get o_update now id req)
     = {| rows := map (fun r => if ID r =? id
                                then updated_record req now r else r)
                    (rows st);
          todos_id_seq := todos_id_seq st |}.
Proof.
  unfold repository.Update.
  destruct (repository.GetByID st o_get id) as [existing|err]; [|now left].
  destruct (_ =? _)%nat eqn:Elen; [now left|].
  assert (Hsome : supplied req <> []).
  { intros Hnil. destruct req as [[title|] [description|] [completed|]];
      try discriminate Hnil. discriminate Elen. }
  unfold pool.QueryRow_update. destruct o_update as [|f]; [|now left].
  rewrite (update_returning_supplied st now id req Hsome).
  right. destruct (pool.Scan _); reflexivity.
Qed.

Lemma Update_kept (st : Store) (o_get o_update : StoreOutcome)
    (now : Timestamp) (id : Z) (req : UpdateTodoRequest) :
  Forall2 (kept_by_update id) (rows st)
    (rows (fst (repository.Update st o_get o_update now id req))).
Proof.
  destruct (Update_store st o_get o_update now id req) as [-> | ->].
  - apply kept_by_update_refl.
  - apply updated_rows_kept.
Qed.

Lemma Forall2_same_identity (id : Z) (rs rs' : list Todo) :
  Forall2 (kept_by_update id) rs rs' ->
  Forall2 same_identity rs rs'
  /\ map ID rs' = map ID rs
  /\ map CreatedAt rs' = map CreatedAt rs
  /\ List.length rs' = List.length rs
  /\ (forall j, j <> id ->
                filter (fun t => ID t =? j) rs' = filter (fun t => ID t =? j) rs).
Proof.
  induction 1 as [|r r' rs rs' ((Hid & Hcr) & Hsame) _ (IH1 & IH2 & IH3 & IH4 & IH5)].
  - repeat split; constructor.
  - split; [constructor; [split|]; assumption|].
    cbn. rewrite IH2, IH3, IH4, Hid, Hcr.
    repeat split; try reflexivity.
    intros j Hj. rewrite (IH5 j Hj).
    destruct (Z.eqb_spec (ID r) j) as [E|E]; [|reflexivity].
    rewrite Hsame by lia. reflexivity.
Qed.

(** X7: whatever the request and whatever the outcomes of its store
    calls, [Update] never changes the id or the creation time of any row,
    never adds or removes a row, touches no row of another id and leaves
    the id sequence where it was. *)
Theorem Update_never_touches_identity (st : Store)
    (o_get o_update : StoreOutcome) (now : Timestamp) (id : Z)
    (req : UpdateTodoRequest) :
  Forall2 same_identity (rows st)
    (rows (fst (repository.Update st o_get o_update now id req)))
  /\ map ID (rows (fst (repository.Update st o_get o_update now id req)))
     = map ID (rows st)
  /\ map CreatedAt (rows (fst (repository.Update st o_get o_update now id req)))
     = map CreatedAt (rows st)
  /\ List.length (rows (fst (repository.Update st o_get o_update now id req)))
     = List.length (rows st)
  /\ (forall j, j <> id ->
                select_by_id
                  (fst (repository.Update st o_get o_update now id req)) j
                = select_by_id st j)
  /\ todos_id_seq (fst (repository.Update st o_get o_update now id req))
     = todos_id_seq st.
Proof.
  pose proof (Update_kept st o_get o_update now id req) as Hkept.
  destruct (Forall2_same_identity id _ _ Hkept) as (H1 & H2 & H3 & H4 & H5).
  repeat (split; [assumption|]).
  destruct (Update_store st o_get o_update now id req) as [-> | ->];
    reflexivity.
Qed.

(** ** Listings before and after an update *)

Lemma insert_desc_same_identity (t t' : Todo) (l l' : list Todo) :
  same_identity t t' -> Forall2 same_identity l l' ->
  Forall2 same_identity (insert_desc t l) (insert_desc t' l').
Proof.
  intros (Hid & Hcr) H. induction H as [|x x' l l' (Hxid & Hxcr) Hl IH]; cbn.
  - repeat constructor; assumption.
  - rewrite Hcr, Hxcr. destruct (CreatedAt x <=? CreatedAt t).
    + repeat constructor; assumption.
    + constructor; [split; assumption | exact IH].
Qed.

Lemma order_by_same_identity (l l' : list Todo) :
  Forall2 same_identity l l' ->
  Forall2 same_identity (order_by_created_at_desc l)
    (order_by_created_at_desc l').
Proof.
  induction 1; cbn; [constructor|]. now apply insert_desc_same_identity.
Qed.

Lemma page_slice_same_identity (limit offset : Z) (l l' : list Todo) :
  Forall2 same_identity l l' ->
  Forall2 same_identity (page_slice limit offset l)
    (page_slice limit offset l').
Proof.
  unfold page_slice. intros H.
  assert (Hskip : Forall2 same_identity (skipn (Z.to_nat offset) l)
                    (skipn (Z.to_nat offset) l')).
  { clear limit. revert l l' H.
    induction (Z.to_nat offset) as [|n IH]; intros l l' H; [exact H|].
    destruct H; cbn; [constructor | now apply IH]. }
  revert Hskip. generalize (skipn (Z.to_nat offset) l)
    (skipn (Z.to_nat offset) l'). clear.
  induction (Z.to_nat limit) as [|n IH]; intros l l' H; [constructor|].
  destruct H; cbn; constructor; auto.
Qed.

Lemma same_identity_ids (l l' : list Todo) :
  Forall2 same_identity l l' -> map ID l' = map ID l.
Proof.
  induction 1 as [|r r' l l' (Hid & _) _ IH]; cbn; [reflexivity|].
  now rewrite Hid, IH.
Qed.

Lemma filter_matches_all (l : list Todo) : filter (matches None) l = l.
Proof. induction l; cbn; [reflexivity | now f_equal]. Qed.

(** X8: an update never moves a record in the unfiltered listing.  The
    listing is ordered by [created_at], which no update writes: on a table
    whose rows have pairwise distinct creation times, so that the order is
    determined, after any [Update], with any outcomes, the same page of the
    unfiltered listing holds records of the same ids in the same order, and
    the total is the same. *)
Theorem Update_keeps_listing_order (st : Store)
    (o_get o_update o_count o_count' : StoreOutcome)
    (o_list o_list' : pool.RowsOutcome) (now : Timestamp) (id : Z)
    (req : UpdateTodoRequest) (page pageSize : Z)
    (todos todos' : list Todo) (total total' : Z) :
  NoDup (map CreatedAt (rows st)) ->
  repository.List st o_count o_list page pageSize None = Ok (todos, total) ->
  repository.List (fst (repository.Update st o_get o_update now id req))
    o_count' o_list' page pageSize None = Ok (todos', total') ->
  map ID todos' = map ID todos
  /\ map CreatedAt todos' = map CreatedAt todos
  /\ total' = total.
Proof.
  intros _ H H'. apply List_returns in H. apply List_returns in H'.
  destruct H as (-> & ->). destruct H' as (-> & ->).
  rewrite !filter_matches_all.
  destruct (Forall2_same_identity id _ _
              (Update_kept st o_get o_update now id req))
    as (Hsame & _ & _ & Hlen & _).
  assert (Hpage : Forall2 same_identity
            (page_slice (repository.normalize_pageSize pageSize)
               (repository.list_offset page pageSize)
               (order_by_created_at_desc (rows st)))
            (page_slice (repository.normalize_pageSize pageSize)
               (repository.list_offset page pageSize)
               (order_by_created_at_desc
                  (rows (fst (repository.Update st o_get o_update now id
                                req)))))).
  { now apply page_slice_same_identity, order_by_same_identity. }
  split; [now apply same_identity_ids|]. split; [|now rewrite Hlen].
  clear -Hpage. induction Hpage as [|r r' l l' (_ & Hcr) _ IH]; cbn;
    [reflexivity | now rewrite Hcr, IH].
Qed.

Lemma sample_store_creation_times : NoDup (map CreatedAt (rows sample_store)).
Proof.
  cbn. repeat constructor; cbn; intuition lia.
Qed.

Lemma Update_keeps_listing_order_witness :
  exists todos' total',
    repository.List
      (fst (repository.Update sample_store Executes Executes 999 1
              (mkUpdate (Some "Buy oat milk") None None)))
      Executes pool.RowsExecute 1 10 None = Ok (todos', total')
    /\ map ID todos' = [4; 2; 1].
Proof.
  do 2 eexists. split; [vm_compute; reflexivity|].
  exact (proj1 (Update_keeps_listing_order sample_store Executes Executes
                  Executes Executes pool.RowsExecute pool.RowsExecute 999 1
                  (mkUpdate (Some "Buy oat milk") None None) 1 10
                  _ _ _ _ sample_store_creation_times eq_refl eq_refl)).
Defined.

(** ** The size and the content of a page *)

Lemma listing_length (st : Store) (completed : option bool) :
  List.length (listing st completed)
  = List.length (filter (matches completed) (rows st)).
Proof.
  unfold listing. apply Permutation_length, order_by_created_at_desc_perm.
Qed.

Lemma page_slice_length (limit offset : Z) (l : list Todo) :
  0 <= limit -> 0 <= offset ->
  Z.of_nat (List.length (page_slice limit offset l))
  = Z.max 0 (Z.min limit (Z.of_nat (List.length l) - offset)).
Proof.
  intros Hl Ho. unfold page_slice. rewrite length_firstn, length_skipn. lia.
Qed.

Lemma List_of_small_page (st : Store) (page pageSize : Z)
    (completed : option bool) :
  page <= 92233720368547758 ->
  repository.List st Executes pool.RowsExecute page pageSize completed
  = Ok (page_slice (repository.normalize_pageSize pageSize)
          ((repository.normalize_page page - 1)
           * repository.normalize_pageSize pageSize)
          (listing st completed),
        Z.of_nat (List.length (listing st completed))).
Proof.
  intros Hp. rewrite List_queries.
  pose proof (list_offset_nonneg page pageSize Hp) as Hoff.
  pose proof (normalize_pageSize_range pageSize) as Hl.
  rewrite list_queries_executes by lia.
  rewrite (list_offset_of_small_page page pageSize Hp).
  now rewrite listing_length.
Qed.

Lemma normalize_page_ge_1 (page : Z) : 1 <= repository.normalize_page page.
Proof. unfold repository.normalize_page. destruct (Z.ltb_spec page 1); lia. Qed.

(** X9: a listing that succeeds never returns more than the normalized
    page size, hence never more than 100 records, and never more records
    than the total it reports; this holds for every page and page size
    asked for. *)
Theorem List_returns_at_most_a_page (st : Store) (o_count : StoreOutcome)
    (o_list : pool.RowsOutcome) (page pageSize : Z) (completed : option bool)
    (todos : list Todo) (total : Z) :
  repository.List st o_count o_list page pageSize completed
  = Ok (todos, total) ->
  Z.of_nat (List.length todos) <= repository.normalize_pageSize pageSize
  /\ Z.of_nat (List.length todos) <= 100
  /\ Z.of_nat (List.length todos) <= total.
Proof.
  intros H. apply List_returns in H. destruct H as (-> & ->).
  pose proof (normalize_pageSize_range pageSize) as Hl.
  unfold page_slice. rewrite length_firstn, length_skipn.
  rewrite (Permutation_length (order_by_created_at_desc_perm _)). lia.
Qed.

Lemma List_returns_at_most_a_page_witness :
  exists todos total,
    repository.List sample_store Executes pool.RowsExecute 1 2 None
    = Ok (todos, total)
    /\ Z.of_nat (List.length todos) <= 2.
Proof.
  do 2 eexists. split; [vm_compute; reflexivity|].
  exact (proj1 (List_returns_at_most_a_page sample_store Executes
                  pool.RowsExecute 1 2 None _ _ eq_refl)).
Defined.

(** X10: for every page up to 92233720368547758, when the store executes
    both queries, the number of records returned is the page size or what
    is left of the matching records after the pages before, and zero when
    nothing is left: a page beyond the last one is an empty sequence, not
    an error. *)
Theorem List_page_length (st : Store) (page pageSize : Z)
    (completed : option bool) :
  page <= 92233720368547758 ->
  exists todos total,
    repository.List st Executes pool.RowsExecute page pageSize completed
    = Ok (todos, total)
    /\ total = Z.of_nat (List.length (filter (matches completed) (rows st)))
    /\ Z.of_nat (List.length todos)
       = Z.max 0
           (Z.min (repository.normalize_pageSize pageSize)
              (total - (repository.normalize_page page - 1)
                       * repository.normalize_pageSize pageSize))
    /\ (total <= (repository.normalize_page page - 1)
                 * repository.normalize_pageSize pageSize ->
        todos = []).
Proof.
  intros Hp. rewrite (List_of_small_page st page pageSize completed Hp).
  pose proof (normalize_pageSize_range pageSize) as Hl.
  pose proof (normalize_page_ge_1 page) as Hn.
  do 2 eexists. split; [reflexivity|].
  split; [apply f_equal, listing_length|].
  assert (Hlen : Z.of_nat (List.length
                   (page_slice (repository.normalize_pageSize pageSize)
                      ((repository.normalize_page page - 1)
                       * repository.normalize_pageSize pageSize)
                      (listing st completed)))
                 = Z.max 0
                     (Z.min (repository.normalize_pageSize pageSize)
                        (Z.of_nat (List.length (listing st completed))
                         - (repository.normalize_page page - 1)
                           * repository.normalize_pageSize pageSize)))
    by (apply page_slice_length; nia).
  split; [exact Hlen|].
  intros Hend. destruct (page_slice _ _ _) as [|t ts]; [reflexivity|].
  cbn [List.length] in Hlen. lia.
Qed.

Lemma List_page_length_witness :
  repository.List sample_store Executes pool.RowsExecute 3 2 None
  = Ok ([], 3).
Proof.
  destruct (List_page_length sample_store 3 2 None ltac:(lia))
    as (todos & total & Hlist & Htotal & _ & Hend).
  rewrite Hlist. subst total. rewrite Hend; [reflexivity|].
  cbn. lia.
Defined.

(** X11: every matching record is on the page its rank says.  On a table
    whose rows have pairwise distinct creation times, the record at rank
    [r] (from 0) of the matching records, newest first, is returned by the
    listing of page [r / pageSize + 1], at position [r mod pageSize], for
    the normalized page size. *)
Theorem record_is_on_the_page_of_its_rank (st : Store) (pageSize : Z)
    (completed : option bool) (r : nat) (t : Todo) :
  NoDup (map CreatedAt (rows st)) ->
  nth_error (listing st completed) r = Some t ->
  Z.of_nat r / repository.normalize_pageSize pageSize + 1
  <= 92233720368547758 ->
  exists todos total,
    repository.List st Executes pool.RowsExecute
      (Z.of_nat r / repository.normalize_pageSize pageSize + 1)
      pageSize completed = Ok (todos, total)
    /\ nth_error todos
         (Z.to_nat (Z.of_nat r mod repository.normalize_pageSize pageSize))
       = Some t.
Proof.
  intros _ Hnth Hp.
  pose proof (normalize_pageSize_range pageSize) as Hl.
  set (limit := repository.normalize_pageSize pageSize) in *.
  rewrite (List_of_small_page st _ pageSize completed Hp). fold limit.
  do 2 eexists. split; [reflexivity|].
  assert (Hq : 0 <= Z.of_nat r / limit) by (apply Z.div_pos; lia).
  assert (Hpage : repository.normalize_page (Z.of_nat r / limit + 1)
                  = Z.of_nat r / limit + 1).
  { unfold repository.normalize_page.
    destruct (Z.ltb_spec (Z.of_nat r / limit + 1) 1); lia. }
  rewrite Hpage. unfold page_slice.
  pose proof (Z.mod_pos_bound (Z.of_nat r) limit ltac:(lia)) as Hm.
  pose proof (Z.div_mod (Z.of_nat r) limit ltac:(lia)) as Hdm.
  rewrite nth_error_firstn.
  destruct (Nat.ltb_spec (Z.to_nat (Z.of_nat r mod limit)) (Z.to_nat limit));
    [|lia].
  rewrite nth_error_skipn.
  replace (Z.to_nat ((Z.of_nat r / limit + 1 - 1) * limit)
           + Z.to_nat (Z.of_nat r mod limit))%nat with r by nia.
  exact Hnth.
Qed.

Lemma record_is_on_the_page_of_its_rank_witness :
  exists todos total,
    repository.List sample_store Executes pool.RowsExecute 2 2 None
    = Ok (todos, total)
    /\ option_map ID (nth_error todos 0) = Some 1.
Proof.
  destruct (record_is_on_the_page_of_its_rank sample_store 2 None 2
              (mkTodo 1 "Buy milk" EmptyString false 100 100)
              sample_store_creation_times eq_refl ltac:(cbn; lia))
    as (todos & total & Hlist & Hnth).
  exists todos, total. split; [exact Hlist|].
  change (Z.to_nat (Z.of_nat 2 mod repository.normalize_pageSize 2))
    with 0%nat in Hnth.
  now rewrite Hnth.
Defined.

(** X12: the totals of the three listings add up: the total without a
    filter is the total of the completed records plus the total of the
    records that are not completed, whatever pages were asked for. *)
Theorem List_totals_add_up (st : Store)
    (o_count o_count1 o_count0 : StoreOutcome)
    (o_list o_list1 o_list0 : pool.RowsOutcome)
    (page pageSize page1 pageSize1 page0 pageSize0 : Z)
    (todos todos1 todos0 : list Todo) (total total1 total0 : Z) :
  repository.List st o_count o_list page pageSize None = Ok (todos, total) ->
  repository.List st o_count1 o_list1 page1 pageSize1 (Some true)
  = Ok (todos1, total1) ->
  repository.List st o_count0 o_list0 page0 pageSize0 (Some false)
  = Ok (todos0, total0) ->
  total = total1 + total0.
Proof.
  intros H H1 H0.
  apply List_returns in H. apply List_returns in H1. apply List_returns in H0.
  destruct H as (_ & ->). destruct H1 as (_ & ->). destruct H0 as (_ & ->).
  rewrite filter_matches_all.
  rewrite <- (filter_length (matches (Some true)) (rows st)).
  rewrite Nat2Z.inj_add. do 3 f_equal.
  apply filter_ext. intros t. cbn. now destruct (Completed t).
Qed.

Lemma List_totals_add_up_witness :
  select_count sample_store None
  = select_count sample_store (Some true)
    + select_count sample_store (Some false).
Proof.
  exact (List_totals_add_up sample_store Executes Executes Executes
           pool.RowsExecute pool.RowsExecute pool.RowsExecute
           1 10 1 10 1 10 _ _ _ _ _ _ eq_refl eq_refl eq_refl).
Defined.

(** ** Pages and total pages together *)

Lemma totalPages_of_in_range (total pageSize : Z) :
  0 <= total -> 1 <= pageSize -> total + pageSize - 1 <= GoInt.max_int ->
  totalPages_of total pageSize = Some (spec_total_pages total pageSize).
Proof.
  intros Ht Hp Hfit. unfold totalPages_of, spec_total_pages.
  assert (Hsub : GoInt.sub (GoInt.add total pageSize) 1 = total + pageSize - 1).
  { unfold GoInt.sub, GoInt.add. rewrite wrap_sub_wrap. apply wrap_in_range.
    unfold GoInt.in_range, GoInt.min_int, GoInt.max_int in *. lia. }
  pose proof (ceil_div_bounds total pageSize Ht Hp) as Hb.
  pose proof (ceil_div_zero_iff total pageSize Ht Hp) as Hz.
  rewrite Hsub. unfold GoInt.div.
  destruct (Z.eqb_spec pageSize 0) as [E|_]; [lia|].
  rewrite ceil_div_by_rounding_up by lia.
  rewrite wrap_in_range
    by (unfold GoInt.in_range, GoInt.min_int, GoInt.max_int in *; lia).
  destruct (Z.eqb_spec (ceil_div total pageSize) 0) as [E|E];
    destruct (Z.eqb_spec total 0) as [E0|E0]; intuition congruence.
Qed.

(** X13: the total pages of the response count the pages that hold
    records.  For a page size in [1, 100], a page from 1 up to
    92233720368547758 and a table of fewer than 2^62 rows, the listing of
    the page is not empty exactly when there are matching records and the
    page is at most the [TotalPages] computed from the total of that
    listing. *)
Theorem TotalPages_counts_the_pages_with_records (st : Store)
    (page pageSize : Z) (completed : option bool) :
  1 <= page <= 92233720368547758 ->
  1 <= pageSize <= 100 ->
  Z.of_nat (List.length (rows st)) < 2 ^ 62 ->
  exists todos total response,
    repository.List st Executes pool.RowsExecute page pageSize completed
    = Ok (todos, total)
    /\ ToTodoListResponse todos total page pageSize = Some response
    /\ 1 <= TotalPages response
    /\ (todos <> [] <-> 0 < total /\ page <= TotalPages response).
Proof.
  intros Hpage Hsize Hrows.
  rewrite (List_of_small_page st page pageSize completed) by lia.
  assert (Hnp : repository.normalize_page page = page).
  { unfold repository.normalize_page. destruct (Z.ltb_spec page 1); lia. }
  assert (Hns : repository.normalize_pageSize pageSize = pageSize).
  { unfold repository.normalize_pageSize.
    destruct (Z.ltb_spec pageSize 1); destruct (Z.gtb_spec pageSize 100);
      cbn; lia. }
  rewrite Hnp, Hns.
  set (total := Z.of_nat (List.length (listing st completed))).
  assert (Htotal : 0 <= total < 2 ^ 62).
  { unfold total. rewrite listing_length.
    pose proof (filter_length_le (matches completed) (rows st)). lia. }
  exists (page_slice pageSize ((page - 1) * pageSize) (listing st completed)),
    total.
  unfold ToTodoListResponse.
  rewrite (totalPages_of_in_range total pageSize)
    by (unfold GoInt.max_int; lia).
  eexists. split; [reflexivity|]. split; [reflexivity|].
  cbn [TotalPages].
  pose proof (page_slice_length pageSize ((page - 1) * pageSize)
                (listing st completed) ltac:(lia) ltac:(nia)) as Hlen.
  fold total in Hlen.
  pose proof (ceil_div_least total pageSize ltac:(lia)) as Hceil.
  unfold spec_total_pages.
  destruct (Z.eqb_spec total 0) as [E0|E0].
  - split; [lia|]. split; [|lia].
    intros Hne. destruct (page_slice _ _ _); [contradiction|].
    cbn [List.length] in Hlen. nia.
  - split; [nia|]. split.
    + intros Hne. split; [lia|].
      destruct (page_slice _ _ _); [contradiction|].
      cbn [List.length] in Hlen. nia.
    + intros (_ & Hle) Hnil. rewrite Hnil in Hlen. cbn in Hlen. nia.
Qed.

Lemma TotalPages_counts_the_pages_with_records_witness :
  exists todos total response,
    repository.List sample_store Executes pool.RowsExecute 2 2 None
    = Ok (todos, total)
    /\ ToTodoListResponse todos total 2 2 = Some response
    /\ 1 <= TotalPages response.
Proof.
  destruct (TotalPages_counts_the_pages_with_records sample_store 2 2 None
              ltac:(lia) ltac:(lia) ltac:(cbn; lia))
    as (todos & total & response & Hlist & Hresp & Hone & _).
  exists todos, total, response. auto.
Defined.

(** ** The mapper *)

(** X14: [ToTodoListResponse] panics with a division by zero exactly when
    the page size is 0; for every other page size, whatever the total, it
    returns a response that carries the given total, page and page size and
    one converted record per todo. *)
Theorem ToTodoListResponse_panics_only_on_zero (todos : list Todo)
    (total page pageSize : Z) :
  (ToTodoListResponse todos total page pageSize = None <-> pageSize = 0)
  /\ (forall response,
         ToTodoListResponse todos total page pageSize = Some response ->
         Total response = total /\ Page response = page
         /\ PageSize response = pageSize
         /\ Todos response = map ToTodoResponse todos
         /\ List.length (Todos response) = List.length todos).
Proof.
  unfold ToTodoListResponse, totalPages_of, GoInt.div.
  destruct (Z.eqb_spec pageSize 0) as [E|E].
  - split; [tauto | discriminate].
  - split; [split; [discriminate | contradiction]|].
    intros response H. injection H as <-. cbn.
    unfold ToTodoResponseList. now rewrite length_map.
Qed.

Lemma set_index_middle (done rest : list TodoResponse) (z x : TodoResponse) :
  set_index (done ++ z :: rest) (List.length done) x
  = Some (done ++ x :: rest).
Proof.
  induction done as [|d done IH]; cbn; [reflexivity|]. now rewrite IH.
Qed.

Lemma range_todos_fills (todos : list Todo) (done : list TodoResponse) :
  range_todos (List.length done) todos
    (done ++ repeat zero_TodoResponse (List.length todos))
  = Some (done ++ map ToTodoResponse todos).
Proof.
  revert done. induction todos as [|todo todos IH]; intros done; cbn.
  - reflexivity.
  - rewrite set_index_middle.
    specialize (IH (done ++ [ToTodoResponse todo])).
    rewrite length_app, Nat.add_1_r, <- !app_assoc in IH. exact IH.
Qed.

(** X15: the loop of [ToTodoResponseList] never indexes out of range and
    fills every slot: the result has one response per todo, in the order of
    the todos, the i-th being the conversion of the i-th todo with its six
    fields unchanged. *)
Theorem ToTodoResponseList_converts_in_order (todos : list Todo) :
  ToTodoResponseList_loop todos = Some (ToTodoResponseList todos)
  /\ List.length (ToTodoResponseList todos) = List.length todos
  /\ (forall i todo,
         nth_error todos i = Some todo ->
         exists response,
           nth_error (ToTodoResponseList todos) i = Some response
           /\ resp_ID response = ID todo
           /\ resp_Title response = Title todo
           /\ resp_Description response = Description todo
           /\ resp_Completed response = Completed todo
           /\ resp_CreatedAt response = CreatedAt todo
           /\ resp_UpdatedAt response = UpdatedAt todo).
Proof.
  split; [exact (range_todos_fills todos [])|].
  unfold ToTodoResponseList. split; [apply length_map|].
  intros i todo H. exists (ToTodoResponse todo).
  split; [|repeat split]. rewrite nth_error_map, H. reflexivity.
Qed.

Lemma ToTodoResponseList_converts_in_order_witness :
  ToTodoResponseList_loop (rows sample_store)
  = Some (ToTodoResponseList (rows sample_store)).
Proof.
  exact (proj1 (ToTodoResponseList_converts_in_order (rows sample_store))).
Defined.

(** ** Joining strings *)

Lemma string_app_assoc (a b c : string) :
  ((a ++ b) ++ c = a ++ (b ++ c))%string.
Proof. induction a as [|x a IH]; cbn; [reflexivity | now rewrite IH]. Qed.

Lemma joinStrings_loop (sep : string) (rest : list string) (result : string) :
  fold_left (fun result s => (result ++ (sep ++ s))%string) rest result
  = (result
       ++ fold_right (fun s tail => (sep ++ s ++ tail)%string) EmptyString
            rest)%string.
Proof.
  revert result. induction rest as [|s rest IH]; intros result; cbn.
  - induction result as [|x r IHr]; cbn; [reflexivity | now rewrite <- IHr].
  - rewrite IH. now rewrite !string_app_assoc.
Qed.

Lemma concat_tail (sep first : string) (rest : list string) :
  String.concat sep (first :: rest)
  = (first
       ++ fold_right (fun s tail => (sep ++ s ++ tail)%string) EmptyString
            rest)%string.
Proof.
  revert first. induction rest as [|s rest IH]; intros first.
  - cbn. induction first as [|x r IHr]; cbn; [reflexivity | now rewrite <- IHr].
  - change (String.concat sep (first :: s :: rest))
      with (first ++ sep ++ String.concat sep (s :: rest))%string.
    now rewrite IH.
Qed.

(** X16: [joinStrings] is the join of the strings with the separator
    between consecutive ones and nowhere else: the empty string for no
    strings, the string itself for one, and in general the standard
    [String.concat]; its length is the sum of the lengths plus one
    separator for each string after the first. *)
Theorem joinStrings_is_concat (strs : list string) (sep : string) :
  repository.joinStrings strs sep = String.concat sep strs
  /\ (strs = [] -> repository.joinStrings strs sep = EmptyString)
  /\ (forall s, repository.joinStrings [s] sep = s)
  /\ (forall first rest,
         strs = first :: rest ->
         String.length (repository.joinStrings strs sep)
         = (String.length first
            + fold_right
                (fun s n => String.length sep + String.length s + n) 0 rest)%nat).
Proof.
  assert (Hjoin : forall first rest,
             repository.joinStrings (first :: rest) sep
             = (first
                  ++ fold_right (fun s tail => (sep ++ s ++ tail)%string)
                       EmptyString rest)%string)
    by (intros; apply joinStrings_loop).
  split; [|split; [|split]].
  - destruct strs as [|first rest]; [reflexivity|].
    now rewrite Hjoin, concat_tail.
  - intros ->. reflexivity.
  - reflexivity.
  - intros first rest ->. rewrite Hjoin.
    assert (Happ : forall a b, String.length (a ++ b)
                               = (String.length a + String.length b)%nat).
    { intros a b. induction a as [|x a IH]; cbn; [reflexivity | now rewrite IH]. }
    rewrite Happ. f_equal.
    induction rest as [|s rest IH]; cbn; [reflexivity|].
    rewrite !Happ, IH. lia.
Qed.

Lemma joinStrings_is_concat_witness :
  String.length (repository.joinStrings ["title = $1"; "completed = $2"] ", ")
  = 26%nat.
Proof.
  destruct (joinStrings_is_concat ["title = $1"; "completed = $2"] ", ")
    as (_ & _ & _ & Hlen).
  rewrite (Hlen _ _ eq_refl). reflexivity.
Defined.

(** * Further properties of the handlers *)

Lemma Update_executes_supplied (st : Store) (now : Timestamp) (id : Z)
    (req : UpdateTodoRequest) (existing : Todo) :
  lookup st id = Some existing ->
  supplied req <> [] ->
  repository.Update st Executes Executes now id req
  = ({| rows := map (fun r => if ID r =? id
                              then updated_record req now r else r)
                  (rows st);
        todos_id_seq := todos_id_seq st |},
     Ok (updated_record req now existing))
  /\ lookup {| rows := map (fun r => if ID r =? id
                                     then updated_record req now r else r)
                         (rows st);
               todos_id_seq := todos_id_seq st |} id
     = Some (updated_record req now existing).
Proof.
  intros Hex Hsome.
  destruct (lookup_some _ _ _ Hex) as (rest & Hsel).
  destruct (lookup_ID _ _ _ Hex) as (Hid & _).
  split.
  - unfold repository.Update. rewrite GetByID_executes, Hex.
    rewrite (build_has_updates req Hsome).
    unfold pool.QueryRow_update.
    rewrite (update_returning_supplied st now id req Hsome), Hsel.
    reflexivity.
  - unfold lookup, select_by_id. cbn [rows].
    rewrite filter_map_same_key by reflexivity.
    fold (select_by_id st id). rewrite Hsel. cbn.
    rewrite Hid, Z.eqb_refl. reflexivity.
Qed.

Lemma Update_executes_without_fields (st : Store) (o_update : StoreOutcome)
    (now : Timestamp) (id : Z) (req : UpdateTodoRequest) (existing : Todo) :
  lookup st id = Some existing ->
  supplied req = [] ->
  repository.Update st Executes o_update now id req = (st, Ok existing).
Proof.
  intros Hex Hnil. unfold repository.Update. rewrite GetByID_executes, Hex.
  destruct req as [[title|] [description|] [completed|]];
    try discriminate Hnil. reflexivity.
Qed.

(** X17: what [GET /api/v1/todos/:id] answers.  The status is 400 exactly
    when the id does not parse, 404 exactly when it parses, the store
    executes the read and no record has the id, 200 exactly when the read
    finds a record, which is then the body, and 500 exactly when the read
    is aborted. *)
Theorem GetTodo_answers (Atoi : string -> option Z) (st : Store)
    (o : StoreOutcome) (idParam : string) :
  (handler.Status (handler.GetTodo Atoi st o idParam)
   = handler.StatusBadRequest <-> Atoi idParam = None)
  /\ (handler.Status (handler.GetTodo Atoi st o idParam)
      = handler.StatusNotFound
      <-> exists id, Atoi idParam = Some id /\ o = Executes
                     /\ lookup st id = None)
  /\ (handler.Status (handler.GetTodo Atoi st o idParam) = handler.StatusOK
      <-> exists id todo, Atoi idParam = Some id /\ o = Executes
                          /\ lookup st id = Some todo)
  /\ (handler.Status (handler.GetTodo Atoi st o idParam)
      = handler.StatusInternalServerError
      <-> exists id f, Atoi idParam = Some id /\ o = Aborts f)
  /\ (forall id todo,
         Atoi idParam = Some id -> lookup st id = Some todo ->
         handler.GetTodo Atoi st Executes idParam
         = {| handler.Status := handler.StatusOK;
              handler.body := handler.TodoBody todo |}).
Proof.
  split; [|split; [|split; [|split]]].
  5: { intros id todo HA Hex. unfold handler.GetTodo, service.GetTodo.
       now rewrite HA, GetByID_executes, Hex. }
  all: unfold handler.GetTodo, service.GetTodo;
    destruct (Atoi idParam) as [id|];
    [destruct o as [|f];
     [rewrite GetByID_executes; destruct (lookup st id) as [todo|] eqn:E
     |rewrite GetByID_aborts]|];
    cbn; (split; [try discriminate | ]).
  all: try (intros (i & H & _); discriminate H).
  all: try (intros (i & t & H & _); discriminate H).
  all: try (intros (i & [=<-] & _ & H); congruence).
  all: try (intros (i & t & [=<-] & _ & H); congruence).
  all: try (intros (i & _ & H & _); discriminate H).
  all: try (intros (i & t & _ & H & _); discriminate H).
  all: try (intros (i & t & _ & H); discriminate H).
  all: try (intros H; discriminate H).
  all: eauto.
Qed.

Lemma DeleteTodo_cases (Atoi : string -> option Z) (st : Store)
    (idParam : string) :
  handler.DeleteTodo Atoi st Executes idParam
  = match Atoi idParam with
    | None =>
        (st, {| handler.Status := handler.StatusBadRequest;
                handler.body :=
                  handler.ErrorResponse "invalid_id" "Invalid todo ID" |})
    | Some id =>
        match lookup st id with
        | Some _ =>
            (fst (delete_by_id st id),
             {| handler.Status := handler.StatusNoContent;
                handler.body := handler.NoBody |})
        | None =>
            (st, {| handler.Status := handler.StatusNotFound;
                    handler.body :=
                      handler.ErrorResponse "not_found" "Todo not found" |})
        end
    end.
Proof.
  unfold handler.DeleteTodo, service.DeleteTodo.
  destruct (Atoi idParam) as [id|]; [|reflexivity].
  rewrite Delete_executes. destruct (lookup st id) as [todo|] eqn:E.
  - destruct (lookup_some _ _ _ E) as (rest & ->). reflexivity.
  - rewrite (delete_absent st id E).
    now rewrite (proj1 (lookup_none _ _) E).
Qed.

Lemma GetTodo_absent (Atoi : string -> option Z) (st : Store)
    (idParam : string) (id : Z) :
  Atoi idParam = Some id -> lookup st id = None ->
  handler.GetTodo Atoi st Executes idParam
  = {| handler.Status := handler.StatusNotFound;
       handler.body := handler.ErrorResponse "not_found" "Todo not found" |}.
Proof.
  intros HA H. unfold handler.GetTodo, service.GetTodo.
  now rewrite HA, GetByID_executes, H.
Qed.

(** X18: what [DELETE /api/v1/todos/:id] answers and does.  With the
    store executing the statement, the status is 204 exactly when the id
    parses and a record had it, and 404 when it parses and none had it; a
    request answered 400 or 404 leaves the store as it was, and after a
    204 the same id is answered 404 by [GetTodo] and by a second
    [DeleteTodo]. *)
Theorem DeleteTodo_answers (Atoi : string -> option Z) (st : Store)
    (idParam : string) :
  (handler.Status (snd (handler.DeleteTodo Atoi st Executes idParam))
   = handler.StatusNoContent
   <-> exists id todo, Atoi idParam = Some id /\ lookup st id = Some todo)
  /\ (handler.Status (snd (handler.DeleteTodo Atoi st Executes idParam))
      = handler.StatusNotFound
      <-> exists id, Atoi idParam = Some id /\ lookup st id = None)
  /\ (handler.Status (snd (handler.DeleteTodo Atoi st Executes idParam))
      = handler.StatusBadRequest <-> Atoi idParam = None)
  /\ (handler.Status (snd (handler.DeleteTodo Atoi st Executes idParam))
      <> handler.StatusNoContent ->
      fst (handler.DeleteTodo Atoi st Executes idParam) = st)
  /\ (handler.Status (snd (handler.DeleteTodo Atoi st Executes idParam))
      = handler.StatusNoContent ->
      handler.Status
        (handler.GetTodo Atoi
           (fst (handler.DeleteTodo Atoi st Executes idParam)) Executes idParam)
      = handler.StatusNotFound
      /\ handler.Status
           (snd (handler.DeleteTodo Atoi
                   (fst (handler.DeleteTodo Atoi st Executes idParam))
                   Executes idParam))
         = handler.StatusNotFound).
Proof.
  rewrite !DeleteTodo_cases.
  destruct (Atoi idParam) as [id|] eqn:EA.
  - destruct (lookup st id) as [todo|] eqn:E; cbn [fst snd handler.Status].
    + assert (Hnone : lookup (fst (delete_by_id st id)) id = None).
      { unfold lookup. now rewrite select_after_delete, Z.eqb_refl. }
      split; [split; [eauto | reflexivity]|].
      split; [split; [discriminate|intros (i & [=<-] & H); congruence]|].
      split; [split; discriminate|].
      split; [intros H; now contradiction H|].
      intros _. rewrite (GetTodo_absent Atoi _ idParam id EA Hnone).
      rewrite Hnone. split; reflexivity.
    + split; [split; [discriminate|intros (i & t & [=<-] & H); congruence]|].
      split; [split; [eauto | reflexivity]|].
      split; [split; discriminate|].
      split; [reflexivity | discriminate].
  - cbn [fst snd handler.Status].
    split; [split; [discriminate|intros (i & t & H & _); discriminate H]|].
    split; [split; [discriminate|intros (i & H & _); discriminate H]|].
    split; [split; reflexivity|].
    split; [reflexivity | discriminate].
Qed.

(** X19: paging parameters that cannot be used are replaced, not
    refused.  Provided [Atoi] reads ["1"] and ["10"] as 1 and 10, a
    request whose [page] and [page_size] are each absent, empty or not a
    number, and whose [completed] is absent or empty, is answered like the
    bare request: page 1 of size 10 of all records. *)
Theorem ListTodos_falls_back_to_defaults (Atoi : string -> option Z)
    (st : Store) (o_count : StoreOutcome) (o_list : pool.RowsOutcome)
    (q : handler.Values) :
  Atoi "1" = Some 1 -> Atoi "10" = Some 10 ->
  (forall s, handler.GetQuery q "page" = Some s ->
             s = EmptyString \/ Atoi s = None) ->
  (forall s, handler.GetQuery q "page_size" = Some s ->
             s = EmptyString \/ Atoi s = None) ->
  (forall s, handler.GetQuery q "completed" = Some s -> s = EmptyString) ->
  handler.page_param Atoi q = 1
  /\ handler.pageSize_param Atoi q = 10
  /\ handler.ListTodos Atoi st o_count o_list q
     = list_response (repository.List st o_count o_list 1 10 None)
  /\ handler.ListTodos Atoi st o_count o_list q
     = handler.ListTodos Atoi st o_count o_list [].
Proof.
  intros H1 H10 Hpage Hsize Hcompleted.
  assert (Ep : handler.page_param Atoi q = 1).
  { unfold handler.page_param, handler.DefaultQuery.
    destruct (handler.GetQuery q "page") as [s|]; [|now rewrite H1].
    destruct (Hpage s eq_refl) as [-> | E]; [reflexivity|].
    rewrite E. now destruct (negb _). }
  assert (Es : handler.pageSize_param Atoi q = 10).
  { unfold handler.pageSize_param, handler.DefaultQuery.
    destruct (handler.GetQuery q "page_size") as [s|]; [|now rewrite H10].
    destruct (Hsize s eq_refl) as [-> | E]; [reflexivity|].
    rewrite E. now destruct (negb _). }
  assert (Ec : handler.completed_filter (handler.Query q "completed") = None).
  { unfold handler.Query.
    destruct (handler.GetQuery q "completed") as [s|]; [|reflexivity].
    now rewrite (Hcompleted s eq_refl). }
  assert (Hresp : handler.ListTodos Atoi st o_count o_list q
                  = list_response (repository.List st o_count o_list 1 10 None)).
  { unfold handler.ListTodos, service.ListTodos. rewrite Ep, Es, Ec.
    unfold list_response.
    destruct (repository.List _ _ _ _ _ _) as [[todos total]|err];
      reflexivity. }
  split; [exact Ep|]. split; [exact Es|]. split; [exact Hresp|].
  rewrite Hresp. unfold handler.ListTodos, service.ListTodos,
    handler.page_param, handler.pageSize_param, handler.DefaultQuery.
  cbn [handler.GetQuery handler.Query]. rewrite H1, H10. cbn.
  unfold list_response.
  destruct (repository.List _ _ _ _ _ _) as [[todos total]|err]; reflexivity.
Qed.

Lemma ListTodos_falls_back_to_defaults_witness :
  handler.ListTodos decimal_Atoi sample_store Executes pool.RowsExecute
    [("page", "two"); ("page_size", EmptyString)]
  = list_response
      (repository.List sample_store Executes pool.RowsExecute 1 10 None).
Proof.
  destruct (ListTodos_falls_back_to_defaults decimal_Atoi sample_store
              Executes pool.RowsExecute
              [("page", "two"); ("page_size", EmptyString)] eq_refl eq_refl)
    as (_ & _ & Hresp & _).
  - intros s [=<-]. now right.
  - intros s [=<-]. now left.
  - intros s H. discriminate H.
  - exact Hresp.
Defined.

Lemma GetTodo_answers_witness :
  handler.GetTodo decimal_Atoi sample_store Executes "2"
  = {| handler.Status := handler.StatusOK;
       handler.body :=
         handler.TodoBody
           {| ID := 2; Title := "Pay rent"; Description := "before Friday";
              Completed := true; CreatedAt := 200; UpdatedAt := 250 |} |}.
Proof.
  destruct (GetTodo_answers decimal_Atoi sample_store Executes "2")
    as (_ & _ & _ & _ & Hok).
  exact (Hok 2 _ eq_refl eq_refl).
Defined.

Lemma DeleteTodo_answers_witness :
  fst (handler.DeleteTodo decimal_Atoi sample_store Executes "3")
  = sample_store.
Proof.
  destruct (DeleteTodo_answers decimal_Atoi sample_store "3")
    as (_ & _ & _ & Hsame & _).
  apply Hsame. vm_compute. discriminate.
Defined.

(** X20: what [PUT /api/v1/todos/:id] answers and does, for an id that
    parses and a body that binds.  An absent id is answered 404 and no
    field is written; an existing id with a body that supplies no field is
    answered 200 with the record as it is and no write; with at least one
    field and the store executing both statements it is answered 200 with
    the updated record, which a following [GetTodo] of the same id returns
    again; an aborted store call is answered 500. *)
Theorem UpdateTodo_answers (Atoi : string -> option Z) (st : Store)
    (now : Timestamp) (idParam : string) (id : Z) (req : UpdateTodoRequest) :
  Atoi idParam = Some id ->
  (lookup st id = None ->
   forall o_update,
     todo_handler.UpdateTodo Atoi st Executes o_update now idParam
       (todo_handler.Bound req)
     = (st, {| handler.Status := handler.StatusNotFound;
               handler.body :=
                 handler.ErrorResponse "not_found" "Todo not found" |}))
  /\ (forall existing o_update,
         lookup st id = Some existing -> supplied req = [] ->
         todo_handler.UpdateTodo Atoi st Executes o_update now idParam
           (todo_handler.Bound req)
         = (st, {| handler.Status := handler.StatusOK;
                   handler.body := handler.TodoBody existing |}))
  /\ (forall existing,
         lookup st id = Some existing -> supplied req <> [] ->
         exists st',
           todo_handler.UpdateTodo Atoi st Executes Executes now idParam
             (todo_handler.Bound req)
           = (st', {| handler.Status := handler.StatusOK;
                      handler.body :=
                        handler.TodoBody (updated_record req now existing) |})
           /\ handler.GetTodo Atoi st' Executes idParam
              = {| handler.Status := handler.StatusOK;
                   handler.body :=
                     handler.TodoBody (updated_record req now existing) |})
  /\ (forall f o_update,
         todo_handler.UpdateTodo Atoi st (Aborts f) o_update now idParam
           (todo_handler.Bound req)
         = (st, {| handler.Status := handler.StatusInternalServerError;
                   handler.body :=
                     handler.ErrorResponse "internal_error"
                       "Failed to update todo" |}))
  /\ (forall existing f,
         lookup st id = Some existing -> supplied req <> [] ->
         snd (todo_handler.UpdateTodo Atoi st Executes (Aborts f) now idParam
                (todo_handler.Bound req))
         = {| handler.Status := handler.StatusInternalServerError;
              handler.body :=
                handler.ErrorResponse "internal_error"
                  "Failed to update todo" |}).
Proof.
  intros HA. unfold todo_handler.UpdateTodo, service.UpdateTodo. rewrite HA.
  split; [|split; [|split; [|split]]].
  - intros Hnone o_update. unfold repository.Update.
    now rewrite GetByID_executes, Hnone.
  - intros existing o_update Hex Hnil.
    now rewrite (Update_executes_without_fields st o_update now id req
                   existing Hex Hnil).
  - intros existing Hex Hsome.
    destruct (Update_executes_supplied st now id req existing Hex Hsome)
      as (Hupdate & Hlookup).
    rewrite Hupdate. eexists. split; [reflexivity|].
    unfold handler.GetTodo, service.GetTodo.
    now rewrite HA, GetByID_executes, Hlookup.
  - intros f o_update. unfold repository.Update. rewrite GetByID_aborts.
    destruct f; reflexivity.
  - intros existing f Hex Hsome. unfold repository.Update.
    rewrite GetByID_executes, Hex, (build_has_updates req Hsome).
    destruct f; reflexivity.
Qed.

Lemma UpdateTodo_answers_witness :
  todo_handler.UpdateTodo decimal_Atoi sample_store Executes Executes 999 "3"
    (todo_handler.Bound (mkUpdate (Some "X") None None))
  = (sample_store,
     {| handler.Status := handler.StatusNotFound;
        handler.body := handler.ErrorResponse "not_found" "Todo not found" |}).
Proof.
  destruct (UpdateTodo_answers decimal_Atoi sample_store 999 "3" 3
              (mkUpdate (Some "X") None None) eq_refl) as (Habsent & _).
  exact (Habsent eq_refl Executes).
Defined.

(** X21: a request that fails before the service is called leaves the
    store alone.  [UpdateTodo] checks the id before the body: an id that
    does not parse is answered 400 [invalid_id] even when the body does not
    bind; a body that does not bind is answered 400 [validation_error] with
    the binder's message, by [UpdateTodo] and by [CreateTodo]; in each case
    the store is the one given, whatever the outcomes a store call would
    have had. *)
Theorem rejected_requests_leave_the_store (Atoi : string -> option Z)
    (st : Store) (o o' : StoreOutcome) (now : Timestamp) (idParam : string)
    (message : string) (bound : todo_handler.Binding UpdateTodoRequest) :
  todo_handler.CreateTodo st o now (todo_handler.BindError message)
  = (st, {| handler.Status := handler.StatusBadRequest;
            handler.body := handler.ErrorResponse "validation_error" message |})
  /\ (Atoi idParam = None ->
      todo_handler.UpdateTodo Atoi st o o' now idParam bound
      = (st, {| handler.Status := handler.StatusBadRequest;
                handler.body :=
                  handler.ErrorResponse "invalid_id" "Invalid todo ID" |}))
  /\ (Atoi idParam <> None ->
      todo_handler.UpdateTodo Atoi st o o' now idParam
        (todo_handler.BindError message)
      = (st, {| handler.Status := handler.StatusBadRequest;
                handler.body :=
                  handler.ErrorResponse "validation_error" message |}))
  /\ (Atoi idParam = None ->
      handler.DeleteTodo Atoi st o idParam
      = (st, {| handler.Status := handler.StatusBadRequest;
                handler.body :=
                  handler.ErrorResponse "invalid_id" "Invalid todo ID" |})).
Proof.
  split; [reflexivity|].
  unfold todo_handler.UpdateTodo, handler.DeleteTodo.
  destruct (Atoi idParam) as [id|]; repeat split; try reflexivity;
    intros H; try discriminate H; now contradiction H.
Qed.

Lemma rejected_requests_leave_the_store_witness :
  todo_handler.UpdateTodo decimal_Atoi sample_store Executes Executes 999
    "abc" (todo_handler.BindError "unexpected end of JSON input")
  = (sample_store,
     {| handler.Status := handler.StatusBadRequest;
        handler.body := handler.ErrorResponse "invalid_id" "Invalid todo ID" |}).
Proof.
  destruct (rejected_requests_leave_the_store decimal_Atoi sample_store
              Executes Executes 999 "abc" "unexpected end of JSON input"
              (todo_handler.BindError "unexpected end of JSON input"))
    as (_ & Hid & _).
  exact (Hid eq_refl).
Defined.

(** X22: what [POST /api/v1/todos] answers and does for a body that
    binds.  On a table whose ids were drawn from the sequence, with the
    store executing the insert, the answer is 201 with the created record,
    which carries the fields of the request, and a following [GetTodo] of
    that id returns the same record; an aborted insert is answered 500
    with a fixed message. *)
Theorem CreateTodo_answers (st : Store) (now : Timestamp)
    (req : CreateTodoRequest) :
  ids_from_sequence st ->
  (exists st' todo,
      todo_handler.CreateTodo st Executes now (todo_handler.Bound req)
      = (st', {| handler.Status := todo_handler.StatusCreated;
                 handler.body := handler.TodoBody todo |})
      /\ Title todo = create_Title req
      /\ Description todo = create_Description req
      /\ Completed todo = create_Completed req
      /\ forall Atoi idParam,
          Atoi idParam = Some (ID todo) ->
          handler.GetTodo Atoi st' Executes idParam
          = {| handler.Status := handler.StatusOK;
               handler.body := handler.TodoBody todo |})
  /\ (forall f,
         snd (todo_handler.CreateTodo st (Aborts f) now
                (todo_handler.Bound req))
         = {| handler.Status := handler.StatusInternalServerError;
              handler.body :=
                handler.ErrorResponse "internal_error"
                  "Failed to create todo" |}).
Proof.
  intros Hinv. split; [|reflexivity].
  unfold todo_handler.CreateTodo, todo_service.CreateTodo.
  rewrite Create_executes. do 2 eexists. split; [reflexivity|].
  cbn [Title Description Completed ID].
  repeat (split; [reflexivity|]).
  intros Atoi idParam HA. unfold handler.GetTodo, service.GetTodo.
  rewrite HA, GetByID_executes. unfold lookup, select_by_id. cbn [rows].
  rewrite filter_app. fold (select_by_id st (todos_id_seq st + 1)).
  rewrite fresh_id_not_selected by (auto; lia).
  cbn. now rewrite Z.eqb_refl.
Qed.

Lemma CreateTodo_answers_witness :
  exists st' todo,
    todo_handler.CreateTodo sample_store Executes 400
      (todo_handler.Bound (mkCreate "Water plants" EmptyString false))
    = (st', {| handler.Status := todo_handler.StatusCreated;
               handler.body := handler.TodoBody todo |})
    /\ Title todo = "Water plants".
Proof.
  destruct (CreateTodo_answers sample_store 400
              (mkCreate "Water plants" EmptyString false)
              sample_store_ids_from_sequence)
    as ((st' & todo & Hcreate & Htitle & _) & _).
  exists st', todo. split; [exact Hcreate | exact Htitle].
Defined.

(** * How the operations compose *)

(** X23: two updates of one record in a row, each supplying at least one
    field and executed by the store: every field takes the value the second
    request supplies, else the value the first supplied, else its original
    value; [created_at] is the original one and [updated_at] the time of
    the second statement; the record returned is the one then stored. *)
Theorem Update_twice_last_write_wins (st : Store) (now1 now2 : Timestamp)
    (id : Z) (r1 r2 : UpdateTodoRequest) (existing : Todo) :
  lookup st id = Some existing ->
  supplied r1 <> [] -> supplied r2 <> [] ->
  exists st2 todo,
    repository.Update
      (fst (repository.Update st Executes Executes now1 id r1))
      Executes Executes now2 id r2 = (st2, Ok todo)
    /\ lookup st2 id = Some todo
    /\ ID todo = id
    /\ Title todo
       = match update_Title r2, update_Title r1 with
         | Some title, _ => title
         | None, Some title => title
         | None, None => Title existing
         end
    /\ Description todo
       = match update_Description r2, update_Description r1 with
         | Some description, _ => description
         | None, Some description => description
         | None, None => Description existing
         end
    /\ Completed todo
       = match update_Completed r2, update_Completed r1 with
         | Some completed, _ => completed
         | None, Some completed => completed
         | None, None => Completed existing
         end
    /\ CreatedAt todo = CreatedAt existing
    /\ UpdatedAt todo = now2.
Proof.
  intros Hex H1 H2.
  destruct (Update_executes_supplied st now1 id r1 existing Hex H1)
    as (Hu1 & Hl1).
  rewrite Hu1. cbn [fst].
  destruct (Update_executes_supplied _ now2 id r2 _ Hl1 H2) as (Hu2 & Hl2).
  rewrite Hu2. do 2 eexists. split; [reflexivity|]. split; [exact Hl2|].
  destruct (lookup_ID _ _ _ Hex) as (Hid & _).
  destruct r1 as [[t1|] [d1|] [c1|]], r2 as [[t2|] [d2|] [c2|]];
    cbn; auto 10.
Qed.

Lemma Update_twice_last_write_wins_witness :
  exists st2 todo,
    repository.Update
      (fst (repository.Update sample_store Executes Executes 500 1
              (mkUpdate (Some "Buy oat milk") None (Some true))))
      Executes Executes 600 1 (mkUpdate None None (Some false))
    = (st2, Ok todo)
    /\ Title todo = "Buy oat milk" /\ Completed todo = false
    /\ UpdatedAt todo = 600.
Proof.
  destruct (Update_twice_last_write_wins sample_store 500 600 1
              (mkUpdate (Some "Buy oat milk") None (Some true))
              (mkUpdate None None (Some false)) _ eq_refl
              ltac:(discriminate) ltac:(discriminate))
    as (st2 & todo & Hu & _ & _ & Ht & _ & Hc & _ & Hup).
  exists st2, todo. auto.
Defined.

Lemma filter_length_removed (id : Z) (rs : list Todo) :
  (List.length (filter (fun t => negb (ID t =? id)%Z) rs)
   + List.length (filter (fun t => (ID t =? id)%Z) rs))%nat
  = List.length rs.
Proof.
  rewrite Nat.add_comm. apply (filter_length (fun t => ID t =? id)).
Qed.

(** X24: deleting a record takes it, and nothing else, out of the
    listing.  On a table where no two rows share an id, after the [Delete]
    of an existing id the unfiltered total is one less than before, no
    listed record has the deleted id, and every record listed afterwards
    was a row before. *)
Theorem Delete_shortens_the_listing (st : Store) (id : Z) (existing : Todo)
    (o_count o_count' : StoreOutcome) (o_list o_list' : pool.RowsOutcome)
    (page pageSize page' pageSize' : Z) (todos todos' : list Todo)
    (total total' : Z) :
  NoDup (map ID (rows st)) ->
  lookup st id = Some existing ->
  repository.List st o_count o_list page pageSize None = Ok (todos, total) ->
  repository.List (fst (repository.Delete st Executes id)) o_count' o_list'
    page' pageSize' None = Ok (todos', total') ->
  total' = total - 1
  /\ Forall (fun t => ID t <> id /\ In t (rows st)) todos'.
Proof.
  intros Hnd Hex H H'. apply List_returns in H. apply List_returns in H'.
  destruct H as (_ & ->). destruct H' as (-> & ->).
  rewrite Delete_executes. cbn [fst]. rewrite !filter_matches_all.
  unfold delete_by_id. cbn [fst rows]. split.
  - pose proof (filter_length_removed id (rows st)) as Hlen.
    pose proof (select_at_most_one (rows st) id Hnd) as Hone.
    destruct (lookup_some _ _ _ Hex) as (rest & Hsel).
    unfold select_by_id in Hsel. rewrite Hsel in Hlen, Hone.
    cbn [List.length] in Hlen, Hone. lia.
  - apply Forall_forall. intros t Ht. apply page_slice_incl in Ht.
    eapply Permutation_in in Ht; [|apply order_by_created_at_desc_perm].
    apply filter_In in Ht. destruct Ht as (Hin & Hid).
    split; [|exact Hin]. destruct (Z.eqb_spec (ID t) id); [discriminate|auto].
Qed.

Lemma sample_store_primary_key : NoDup (map ID (rows sample_store)).
Proof.
  cbn. repeat constructor; cbn; intuition lia.
Qed.

Lemma Delete_shortens_the_listing_witness :
  exists todos' total',
    repository.List (fst (repository.Delete sample_store Executes 2))
      Executes pool.RowsExecute 1 10 None = Ok (todos', total')
    /\ total' = 2.
Proof.
  do 2 eexists. split; [vm_compute; reflexivity|].
  exact (proj1 (Delete_shortens_the_listing sample_store 2 _ Executes
                  Executes pool.RowsExecute pool.RowsExecute 1 10 1 10
                  _ _ 3 _ sample_store_primary_key eq_refl eq_refl eq_refl)).
Defined.

Lemma newest_stays_first (t : Todo) (rs tail : list Todo) :
  Forall (fun r => CreatedAt r < CreatedAt t) rs ->
  fold_right insert_desc (t :: tail) rs
  = t :: fold_right insert_desc tail rs.
Proof.
  induction 1 as [|r rs Hr _ IH]; cbn; [reflexivity|].
  rewrite IH. cbn. destruct (Z.leb_spec (CreatedAt t) (CreatedAt r)); [lia|].
  reflexivity.
Qed.

Lemma fold_right_insert_app (rs : list Todo) (t : Todo) :
  order_by_created_at_desc (rs ++ [t]) = fold_right insert_desc [t] rs.
Proof. unfold order_by_created_at_desc. now rewrite fold_right_app. Qed.

(** X25: a new record heads the listing.  On a table whose rows have
    pairwise distinct creation times, when a record is created at a time
    later than the creation time of every row, the first page of the
    unfiltered listing starts with the new record, followed by the records
    that started it before, and the total is one more. *)
Theorem Create_heads_the_listing (st : Store) (now : Timestamp)
    (req : CreateTodoRequest) (pageSize : Z) :
  NoDup (map CreatedAt (rows st)) ->
  Forall (fun r => CreatedAt r < now) (rows st) ->
  exists st' todo,
    repository.Create st Executes now req = (st', Ok todo)
    /\ repository.List st' Executes pool.RowsExecute 1 pageSize None
       = Ok (todo
               :: firstn (Z.to_nat (repository.normalize_pageSize pageSize - 1))
                    (listing st None),
             Z.of_nat (List.length (rows st)) + 1).
Proof.
  intros _ Hlater. rewrite Create_executes. do 2 eexists.
  split; [reflexivity|].
  rewrite List_of_small_page by lia.
  pose proof (normalize_pageSize_range pageSize) as Hl.
  unfold listing. cbn [rows]. rewrite !filter_matches_all.
  rewrite fold_right_insert_app, newest_stays_first by exact Hlater.
  rewrite (Permutation_length
             (perm_skip _ (order_by_created_at_desc_perm (rows st)))).
  change (repository.normalize_page 1) with 1.
  unfold page_slice. cbn [Z.sub Z.mul Z.to_nat skipn List.length].
  f_equal. f_equal; [|lia].
  replace (Z.to_nat (repository.normalize_pageSize pageSize))
    with (S (Z.to_nat (repository.normalize_pageSize pageSize - 1))) by lia.
  reflexivity.
Qed.

Lemma Create_heads_the_listing_witness :
  exists st' todo,
    repository.Create sample_store Executes 400
      (mkCreate "Water plants" EmptyString false) = (st', Ok todo)
    /\ option_map (map ID)
         (match repository.List st' Executes pool.RowsExecute 1 2 None with
          | Ok (todos, _) => Some todos
          | Err _ => None
          end) = Some [5; 4].
Proof.
  destruct (Create_heads_the_listing sample_store 400
              (mkCreate "Water plants" EmptyString false) 2
              sample_store_creation_times)
    as (st' & todo & Hcreate & Hlist).
  { repeat constructor; cbn; lia. }
  exists st', todo. split; [exact Hcreate|].
  rewrite Hlist. rewrite Create_executes in Hcreate.
  injection Hcreate as _ <-. reflexivity.
Defined.

(** ** Timestamps *)

Lemma step_keeps_timestamps (st : Store) (c : Call) (lo : Timestamp) :
  timestamps_ordered st ->
  Forall (fun r => CreatedAt r <= lo) (rows st) ->
  Forall (fun now => lo <= now) (call_time c) ->
  timestamps_ordered (fst (step st c))
  /\ Forall (fun r => CreatedAt r <= fold_right Z.max lo (call_time c))
       (rows (fst (step st c))).
Proof.
  intros Hord Hlo Htime.
  destruct c as [o now req|o_get o_update now id req|o id];
    cbn [step call_time fold_right] in *.
  - inversion Htime as [|? ? Hnow _]; subst.
    destruct o as [|f].
    + rewrite Create_executes. unfold timestamps_ordered. cbn [fst rows].
      split; apply Forall_app; split; try (repeat constructor; cbn; lia).
      * exact Hord.
      * eapply Forall_impl; [|exact Hlo]. cbn. intros; lia.
    + rewrite Create_aborts. cbn [fst]. split; [exact Hord|].
      eapply Forall_impl; [|exact Hlo]. cbn. intros; lia.
  - inversion Htime as [|? ? Hnow _]; subst. cbn [fst].
    destruct (Update_store st o_get o_update now id req) as [-> | ->].
    + split; [exact Hord|].
      eapply Forall_impl; [|exact Hlo]. cbn. intros; lia.
    + unfold timestamps_ordered in *. cbn [rows].
      rewrite Forall_forall in Hord, Hlo.
      split; apply Forall_forall; intros r' Hin;
        apply in_map_iff in Hin; destruct Hin as (r & <- & Hr);
        specialize (Hord r Hr); specialize (Hlo r Hr);
        destruct (ID r =? id); cbn; lia.
  - cbn [fst]. unfold repository.Delete, pool.Exec_delete.
    destruct o as [|f]; [|cbn; auto]. unfold delete_by_id.
    unfold timestamps_ordered in *. rewrite Forall_forall in Hord, Hlo.
    destruct (_ =? 0); cbn [fst rows];
      (split; apply Forall_forall; intros r Hin; apply filter_In in Hin;
       destruct Hin as (Hin & _); auto).
Qed.

Lemma run_keeps_timestamps (calls : list Call) (st : Store) (lo : Timestamp) :
  timestamps_ordered st ->
  Forall (fun r => CreatedAt r <= lo) (rows st) ->
  Forall (fun now => lo <= now) (times calls) ->
  StronglySorted Z.le (times calls) ->
  timestamps_ordered (fst (run st calls)).
Proof.
  revert st lo. induction calls as [|c calls IH]; intros st lo Hord Hlo Hge Hs;
    cbn [run]; [exact Hord|].
  unfold times in Hge, Hs. cbn [flat_map] in Hge, Hs.
  apply Forall_app in Hge. destruct Hge as (Hge1 & Hge2).
  destruct (step_keeps_timestamps st c lo Hord Hlo Hge1) as (Hord1 & Hlo1).
  destruct (step st c) as [st1 created1]. cbn [fst] in *.
  assert (Hrest : StronglySorted Z.le (times calls)
                  /\ Forall (fun now => fold_right Z.max lo (call_time c) <= now)
                       (times calls)).
  { unfold times. destruct (call_time c) as [|now [|now' more]] eqn:Ec.
    - cbn in *. auto.
    - cbn in Hs |- *. inversion Hs; subst. split; [assumption|].
      inversion Hge1; subst.
      eapply Forall_impl; [|eassumption]. cbn. intros; lia.
    - destruct c; discriminate Ec. }
  destruct Hrest as (Hs' & Hge').
  specialize (IH st1 _ Hord1 Hlo1 Hge' Hs').
  destruct (run st1 calls) as [st2 created2]. exact IH.
Qed.

(** X26: as long as the clock of the store never runs backwards, no
    record is ever updated before it was created.  After any sequence of
    repository calls on the empty table whose statements carry
    non-decreasing times, every row has [created_at <= updated_at]. *)
Theorem updated_at_never_precedes_created_at (calls : list Call) :
  StronglySorted Z.le (times calls) ->
  timestamps_ordered (fst (run empty_store calls)).
Proof.
  intros Hs.
  destruct (times calls) as [|first rest] eqn:E.
  - apply (run_keeps_timestamps calls empty_store 0); try constructor.
    + rewrite E. constructor.
    + rewrite E. constructor.
  - apply (run_keeps_timestamps calls empty_store first); try constructor.
    + rewrite E. inversion Hs; subst. constructor; [lia|].
      assumption.
    + now rewrite E.
Qed.

Lemma updated_at_never_precedes_created_at_witness :
  timestamps_ordered
    (fst (run empty_store
            [CallCreate Executes 10 (mkCreate "a" EmptyString false);
             CallUpdate Executes Executes 20 1 (mkUpdate None None (Some true));
             CallDelete Executes 7])).
Proof.
  apply updated_at_never_precedes_created_at.
  cbn. repeat constructor; lia.
Defined.

(** The clock matters: an update stamped before the creation leaves a row
    with [updated_at < created_at]. *)
Example clock_running_backwards :
  ~ timestamps_ordered
      (fst (run empty_store
              [CallCreate Executes 10 (mkCreate "a" EmptyString false);
               CallUpdate Executes Executes 5 1
                 (mkUpdate None None (Some true))])).
Proof.
  intros H. vm_compute in H. inversion H as [|? ? Hle _]. now apply Hle.
Qed.

(** * The pool and the log level *)

Lemma int32_exact (z : Z) : database.is_int32 z -> database.int32 z = z.
Proof.
  unfold database.is_int32, database.int32. intros H.
  rewrite Z.mod_small; lia.
Qed.

(** X27: [database.New] narrows a connection limit to [int32] only when
    it fits, and never leaves a pool open behind an error.  Given a parsed
    configuration whose limits are [int32] values, the limits used are the
    configured ones when they lie in [1, 2147483647], unchanged in value,
    and the parsed defaults otherwise; the idle time is 30 minutes and the
    health check period one minute.  When [New] fails the pool was never
    created or has been closed (after a failed ping); when it succeeds the
    pool is open with that configuration. *)
Theorem New_limits_and_pool (cfg : database.DatabaseConfig)
    (parsed : database.PoolConfig) (created pinged : option error) :
  database.is_int32 (database.MaxConns parsed) ->
  database.is_int32 (database.MinConns parsed) ->
  let used := database.configure cfg parsed in
  database.MaxConns used
  = (if (1 <=? database.MaxOpenConns cfg)
        && (database.MaxOpenConns cfg <=? 2147483647)
     then database.MaxOpenConns cfg else database.MaxConns parsed)
  /\ database.MinConns used
     = (if (1 <=? database.MaxIdleConns cfg)
           && (database.MaxIdleConns cfg <=? 2147483647)
        then database.MaxIdleConns cfg else database.MinConns parsed)
  /\ database.is_int32 (database.MaxConns used)
  /\ database.is_int32 (database.MinConns used)
  /\ database.MaxConnLifetime used = database.ConnMaxLifetime cfg
  /\ database.MaxConnIdleTime used = 1800000000000
  /\ database.HealthCheckPeriod used = 60000000000
  /\ (created = None -> pinged = None ->
      database.New cfg (inl parsed) created pinged
      = (Ok used, database.PoolOpen used))
  /\ (forall err pool,
         database.New cfg (inl parsed) created pinged = (Err err, pool) ->
         (created <> None \/ pinged <> None)
         /\ forall config, pool <> database.PoolOpen config)
  /\ (forall err pool,
         database.New cfg (inl parsed) created pinged = (Err err, pool) ->
         created = None -> pool = database.PoolClosed used).
Proof.
  intros Hmax Hmin used.
  assert (Emax : database.MaxConns used
     = (if (1 <=? database.MaxOpenConns cfg)
           && (database.MaxOpenConns cfg <=? 2147483647)
        then database.MaxOpenConns cfg else database.MaxConns parsed)).
  { unfold used, database.configure.
    destruct (Z.gtb_spec (database.MaxOpenConns cfg) 0);
      destruct (Z.leb_spec 1 (database.MaxOpenConns cfg)); try lia;
      destruct (Z.leb_spec (database.MaxOpenConns cfg) 2147483647);
      cbn [andb];
      destruct ((database.MaxIdleConns cfg >? 0)
                && (database.MaxIdleConns cfg <=? 2147483647));
      cbn [database.MaxConns]; try reflexivity;
      apply int32_exact; unfold database.is_int32; lia. }
  assert (Emin : database.MinConns used
     = (if (1 <=? database.MaxIdleConns cfg)
           && (database.MaxIdleConns cfg <=? 2147483647)
        then database.MaxIdleConns cfg else database.MinConns parsed)).
  { unfold used, database.configure.
    destruct (Z.gtb_spec (database.MaxIdleConns cfg) 0);
      destruct (Z.leb_spec 1 (database.MaxIdleConns cfg)); try lia;
      destruct (Z.leb_spec (database.MaxIdleConns cfg) 2147483647);
      cbn [andb];
      destruct ((database.MaxOpenConns cfg >? 0)
                && (database.MaxOpenConns cfg <=? 2147483647));
      cbn [database.MinConns]; try reflexivity;
      apply int32_exact; unfold database.is_int32; lia. }
  split; [exact Emax|]. split; [exact Emin|].
  split.
  { rewrite Emax.
    destruct (Z.leb_spec 1 (database.MaxOpenConns cfg));
      destruct (Z.leb_spec (database.MaxOpenConns cfg) 2147483647);
      cbn [andb]; try exact Hmax; unfold database.is_int32; lia. }
  split.
  { rewrite Emin.
    destruct (Z.leb_spec 1 (database.MaxIdleConns cfg));
      destruct (Z.leb_spec (database.MaxIdleConns cfg) 2147483647);
      cbn [andb]; try exact Hmin; unfold database.is_int32; lia. }
  split; [reflexivity|]. split; [reflexivity|]. split; [reflexivity|].
  split; [intros -> ->; reflexivity|].
  unfold database.New. fold used.
  split; intros err pool H.
  - destruct created as [e|]; [|destruct pinged as [e|]].
    + injection H as _ <-. split; [left|]; discriminate.
    + injection H as _ <-. split; [right|]; discriminate.
    + discriminate H.
  - intros ->. destruct pinged as [e|]; [|discriminate H].
    now injection H as _ <-.
Qed.

Lemma New_limits_and_pool_witness :
  database.MaxConns
    (database.configure (database.mkDatabaseConfig 25 5000000000 300000000000)
       (database.mkPoolConfig 4 0 0 0 0)) = 25
  /\ database.MinConns
       (database.configure
          (database.mkDatabaseConfig 25 5000000000 300000000000)
          (database.mkPoolConfig 4 0 0 0 0)) = 0.
Proof.
  destruct (New_limits_and_pool
              (database.mkDatabaseConfig 25 5000000000 300000000000)
              (database.mkPoolConfig 4 0 0 0 0) None None)
    as (Hmax & Hmin & _); [split; cbn; lia | split; cbn; lia |].
  split; [rewrite Hmax | rewrite Hmin]; reflexivity.
Defined.

Lemma lower_upper_byte (c : ascii) :
  logger.lower_byte (logger.upper_byte c) = logger.lower_byte c.
Proof. destruct c as [[] [] [] [] [] [] [] []]; reflexivity. Qed.

Lemma lower_lower_byte (c : ascii) :
  logger.lower_byte (logger.lower_byte c) = logger.lower_byte c.
Proof. destruct c as [[] [] [] [] [] [] [] []]; reflexivity. Qed.

Lemma ToLower_ToUpper (s : string) :
  logger.ToLower (logger.ToUpper s) = logger.ToLower s.
Proof.
  induction s as [|c s IH]; cbn; [reflexivity|].
  now rewrite lower_upper_byte, IH.
Qed.

Lemma ToLower_ToLower (s : string) :
  logger.ToLower (logger.ToLower s) = logger.ToLower s.
Proof.
  induction s as [|c s IH]; cbn; [reflexivity|].
  now rewrite lower_lower_byte, IH.
Qed.

(** X28: [parseLevel] does not see the case of its argument and falls
    back to info.  For a level written in ASCII, the upper-cased and the
    lower-cased text give the level of the text itself; the level is
    debug, warn or error exactly when the lower-cased text is ["debug"],
    ["warn"] or ["warning"], or ["error"], and info for every other text,
    the empty one included. *)
Theorem parseLevel_ignores_case (level : string) :
  logger.is_ascii level = true ->
  logger.parseLevel (logger.ToUpper level) = logger.parseLevel level
  /\ logger.parseLevel (logger.ToLower level) = logger.parseLevel level
  /\ (logger.parseLevel level = logger.LevelDebug
      <-> logger.ToLower level = "debug")
  /\ (logger.parseLevel level = logger.LevelWarn
      <-> logger.ToLower level = "warn" \/ logger.ToLower level = "warning")
  /\ (logger.parseLevel level = logger.LevelError
      <-> logger.ToLower level = "error")
  /\ (logger.parseLevel level = logger.LevelInfo
      <-> logger.ToLower level <> "debug" /\ logger.ToLower level <> "warn"
          /\ logger.ToLower level <> "warning"
          /\ logger.ToLower level <> "error").
Proof.
  intros _. unfold logger.parseLevel.
  rewrite ToLower_ToUpper, ToLower_ToLower.
  split; [reflexivity|]. split; [reflexivity|].
  destruct (String.eqb_spec (logger.ToLower level) "debug") as [E|E];
    [rewrite E; repeat split; try discriminate; intuition discriminate|].
  destruct (String.eqb_spec (logger.ToLower level) "info") as [E1|E1];
    [rewrite E1; repeat split; try discriminate; intuition discriminate|].
  destruct (String.eqb_spec (logger.ToLower level) "warn") as [E2|E2];
    [rewrite E2; repeat split; try discriminate; intuition discriminate|].
  destruct (String.eqb_spec (logger.ToLower level) "warning") as [E3|E3];
    [rewrite E3; repeat split; try discriminate; intuition discriminate|].
  destruct (String.eqb_spec (logger.ToLower level) "error") as [E4|E4];
    [rewrite E4; repeat split; try discriminate; intuition discriminate|].
  cbn. repeat split; try discriminate; intuition discriminate.
Qed.

Lemma parseLevel_ignores_case_witness :
  logger.parseLevel "WARNING" = logger.LevelWarn
  /\ logger.parseLevel "" = logger.LevelInfo.
Proof.
  destruct (parseLevel_ignores_case "WARNING" eq_refl)
    as (_ & _ & _ & Hwarn & _).
  destruct (parseLevel_ignores_case "" eq_refl)
    as (_ & _ & _ & _ & _ & Hinfo).
  split; [apply Hwarn; now right|].
  apply Hinfo. repeat split; discriminate.
Defined.
